(** * A book catalog persisted to a JSON file: model of [main.py]

    The development embeds the two classes of [main.py], [Book] and
    [Library], and proves the properties of the catalog store: identifier
    assignment, the load and save protocol, search, removal and status update.

    Modelling choices.
    - A [Book] carries the types of the annotations of [Book.__init__]:
      [book_id] and [year] are Python integers ([Z]), [title], [author] and
      [status] are Python strings.  A Python string is modelled by the bytes
      of its UTF-8 encoding, so that equality of strings is equality of
      [string]s.
    - Every entry of [self.books] is an object of its own ([from_dict] and
      [add_book] allocate, nothing else appends), so the list never holds one
      object twice and the list is modelled by the values of its entries: the
      in-place assignment of [update_status] rewrites the entry at the index
      where the object was found, and [list.remove], which compares by
      identity, removes the first entry equal to the object found.
    - The state of a run is the [Library] object ([books], [current_id]), the
      backing file and the lines printed so far.  The methods are written in
      a state and exception monad; an exception that nothing catches ends the
      process ([Library()] is called outside the [try] of the main loop).
    - The [json] module is library code.  The backing file is modelled by what
      [json.load] makes of it: bytes that do not decode, text that does not
      parse, or the parsed document.  [json.dump] writes the text of the
      document it is given; failures of the write itself are not modelled. *)

From stdpp Require Import base list strings pretty.
From Stdlib Require Import ZArith Ascii Sorted.

Open Scope Z_scope.

(** ** Python values read from the backing file *)

(** What [json.load] returns; numbers with a fractional part are left out. *)
#[warnings="-register-all"]
Inductive json : Type :=
  | JNull
  | JBool (b : bool)
  | JInt (z : Z)
  | JStr (s : string)
  | JList (l : list json)
  | JObj (kv : list (string * json)).

(** A dictionary is the list of its items in insertion order. *)
Fixpoint dict_get (k : string) (kv : list (string * json)) : option json :=
  match kv with
  | [] => None
  | (k', v) :: kv => if decide (k' = k) then Some v else dict_get k kv
  end.

(** ** class Book *)

Record Book : Type := mkBook {
  book_id : Z;
  title : string;
  author : string;
  year : Z;
  status : string
}.

Global Instance Book_eq_dec : EqDecision Book.
Proof. solve_decision. Defined.

(** The default of the parameter [status] of [Book.__init__]. *)
Definition default_status : string := "в наличии".

(** [Book(book_id, title, author, year)] with [status] left to its default. *)
Definition Book_init (i : Z) (t a : string) (y : Z) : Book :=
  mkBook i t a y default_status.

(** The assignment [book.status = new_status]. *)
Definition set_status (b : Book) (st : string) : Book :=
  mkBook (book_id b) (title b) (author b) (year b) st.

(** [str] of a Python integer. *)
Definition str_int (z : Z) : string := pretty z.

(** [Book.__str__] *)
Definition Book_str (b : Book) : string :=
  "ID: " +:+ str_int (book_id b) +:+ ", Title: " +:+ title b
  +:+ ", Author: " +:+ author b +:+ ", "
  +:+ "Year: " +:+ str_int (year b) +:+ ", Status: " +:+ status b.

(** [Book.to_dict] *)
Definition to_dict (b : Book) : json :=
  JObj [ ("id", JInt (book_id b));
         ("title", JStr (title b));
         ("author", JStr (author b));
         ("year", JInt (year b));
         ("status", JStr (status b)) ].

(** ** The state of a run and its monad *)

(** The backing file as [open] and [json.load] see it. *)
Inductive file_content : Type :=
  | Undecodable            (* bytes that are not UTF-8: [read] raises *)
  | Malformed              (* text that is not JSON: [json.load] raises *)
  | Json_text (doc : json) (* text that parses to [doc] *).

Record State : Type := mkState {
  books : list Book;             (* self.books *)
  current_id : Z;                (* self.current_id *)
  disk : option file_content;    (* library.json, [None] when absent *)
  stdout : list string           (* the lines printed so far *)
}.

Inductive exn : Type :=
  | KeyError (k : string)
  | TypeError
  | ValueError
  | UnicodeDecodeError
  | JSONDecodeError.

(** A method returns, raises, or leaves the typed model ([Untyped]: a value
    read from the file does not have the type that [Book.__init__] annotates;
    Python stores it unchecked, the model stops). *)
Inductive outcome (A : Type) : Type :=
  | Return (a : A) (s : State)
  | Raise (e : exn) (s : State)
  | Untyped.
Arguments Return {A} a s.
Arguments Raise {A} e s.
Arguments Untyped {A}.

Definition M (A : Type) : Type := State → outcome A.

Global Instance M_ret : MRet M := λ A a s, Return a s.
Global Instance M_bind : MBind M := λ A B f m s,
  match m s with
  | Return a s' => f a s'
  | Raise e s' => Raise e s'
  | Untyped => Untyped
  end.

Definition raise {A} (e : exn) : M A := λ s, Raise e s.
Definition untyped {A} : M A := λ _, Untyped.
Definition get : M State := λ s, Return s s.

(** [try: body except E: handler], for the exceptions [E] that [catches]
    accepts. *)
Definition try_except {A} (body : M A) (catches : exn → bool) (handler : M A)
  : M A := λ s,
  match body s with
  | Raise e s' => if catches e then handler s' else Raise e s'
  | o => o
  end.

Notation "m ;; k" := (mbind (λ _, k) m)
  (at level 100, k at level 200, right associativity) : stdpp_scope.

(** [for x in l: body x] *)
Fixpoint for_each {A} (l : list A) (body : A → M unit) : M unit :=
  match l with
  | [] => mret tt
  | x :: l => body x ;; for_each l body
  end.

(** [print(line)] *)
Definition print (line : string) : M unit := λ s,
  Return tt (mkState (books s) (current_id s) (disk s) (stdout s ++ [line])).

Definition set_books (bs : list Book) : M unit := λ s,
  Return tt (mkState bs (current_id s) (disk s) (stdout s)).

Definition set_current_id (i : Z) : M unit := λ s,
  Return tt (mkState (books s) i (disk s) (stdout s)).

Definition write_file (c : file_content) : M unit := λ s,
  Return tt (mkState (books s) (current_id s) (Some c) (stdout s)).

(** ** Python primitives used by the methods *)

(** [data[k]] for a string [k]. *)
Definition getitem (data : json) (k : string) : M json :=
  match data with
  | JObj kv => match dict_get k kv with
               | Some v => mret v
               | None => raise (KeyError k)
               end
  | _ => raise TypeError
  end.

(** One string per byte; Python yields one string per character, which
    [load_books] cannot tell apart: [from_dict] raises on either. *)
Fixpoint chars (s : string) : list string :=
  match s with
  | EmptyString => []
  | String c s => String c EmptyString :: chars s
  end.

(** The items that [for x in data] runs over. *)
Definition py_iter (data : json) : M (list json) :=
  match data with
  | JList l => mret l
  | JObj kv => mret (JStr <$> kv.*1)
  | JStr s => mret (JStr <$> chars s)
  | _ => raise TypeError
  end.

(** [l.remove(x)]: drops the first entry equal to [x], [ValueError] when
    there is none. *)
Fixpoint list_remove {A} `{EqDecision A} (x : A) (l : list A)
  : option (list A) :=
  match l with
  | [] => None
  | y :: l => if decide (y = x) then Some l else (y ::.) <$> list_remove x l
  end.

(** [json.load(file)] on the open backing file. *)
Definition json_load (c : file_content) : M json :=
  match c with
  | Undecodable => raise UnicodeDecodeError
  | Malformed => raise JSONDecodeError
  | Json_text doc => mret doc
  end.

(** ** Book.from_dict *)

(** The five values in the typed record, when they have the annotated
    types. *)
Definition Book_of_values (i t a y st : json) : M Book :=
  match i, t, a, y, st with
  | JInt i, JStr t, JStr a, JInt y, JStr st => mret (mkBook i t a y st)
  | _, _, _, _, _ => untyped
  end.

Definition from_dict (data : json) : M Book :=
  i ← getitem data "id";
  t ← getitem data "title";
  a ← getitem data "author";
  y ← getitem data "year";
  st ← getitem data "status";
  Book_of_values i t a y st.

(** ** class Library

    [FILE_PATH] names the one backing file, the field [disk] of the state. *)

Definition is_JSONDecodeError (e : exn) : bool :=
  match e with JSONDecodeError => true | _ => false end.

Definition load_error_message : string :=
  "Ошибка чтения файла. В библиотеке нет доступных книг.".

Definition load_books : M unit :=
  s ← get;
  match disk s with
  | Some file =>
      try_except
        (data ← json_load file;
         items ← py_iter data;
         for_each items (λ book_data,
           book ← from_dict book_data;
           s ← get;
           set_books (books s ++ [book]);;
           set_current_id (Z.max (current_id s) (book_id book + 1))))
        is_JSONDecodeError
        (print load_error_message)
  | None => mret tt
  end.

(** [Library()], run on the file and the output of the process. *)
Definition Library_init (d : option file_content) (out : list string)
  : outcome unit :=
  load_books (mkState [] 1 d out).

Definition save_books : M unit :=
  s ← get;
  write_file (Json_text (JList (to_dict <$> books s))).

Definition added_message (title : string) (i : Z) : string :=
  "Книга '" +:+ title +:+ "' добавлена с ID " +:+ str_int i +:+ ".".

Definition add_book (title author : string) (year : Z) : M unit :=
  s ← get;
  let book := Book_init (current_id s) title author year in
  set_books (books s ++ [book]);;
  set_current_id (current_id s + 1);;
  save_books;;
  print (added_message title (book_id book)).

Definition not_found_message (i : Z) : string :=
  "Ошибка: Книга с ID " +:+ str_int i +:+ " не найдена.".

Definition removed_message (i : Z) : string :=
  "Книга с ID " +:+ str_int i +:+ " удалена.".

Definition remove_book (i : Z) : M unit :=
  s ← get;
  match list_find (λ book, book_id book = i) (books s) with
  | Some (_, book_to_remove) =>
      match list_remove book_to_remove (books s) with
      | Some bs => set_books bs
      | None => raise ValueError
      end;;
      save_books;;
      print (removed_message i)
  | None => print (not_found_message i)
  end.

Definition display_books : M unit :=
  s ← get;
  match books s with
  | [] => print "Библиотека пуста."
  | bs => print "Список всех книг:";; for_each bs (λ book, print (Book_str book))
  end.

Definition updated_message (title new_status : string) : string :=
  "Статус книги '" +:+ title +:+ "' обновлен на '" +:+ new_status +:+ "'.".

Definition update_status (i : Z) (new_status : string) : M unit :=
  s ← get;
  match list_find (λ book, book_id book = i) (books s) with
  | Some (k, book_to_update) =>
      set_books (<[k := set_status book_to_update new_status]> (books s));;
      save_books;;
      print (updated_message (title book_to_update) new_status)
  | None => print (not_found_message i)
  end.

(** The attributes that [search_books] reads are strings or integers. *)
Inductive attr : Type :=
  | AStr (s : string)
  | AInt (z : Z).

(** [str(x)] *)
Definition py_str (x : attr) : string :=
  match x with
  | AStr s => s
  | AInt z => str_int z
  end.

(** [getattr(book, key, default)] over the attributes that [__init__] sets. *)
Definition getattr (book : Book) (key : string) (default : attr) : attr :=
  if decide (key = "book_id") then AInt (book_id book)
  else if decide (key = "title") then AStr (title book)
  else if decide (key = "author") then AStr (author book)
  else if decide (key = "year") then AInt (year book)
  else if decide (key = "status") then AStr (status book)
  else default.

Definition search_keys : list string := ["title"; "author"; "year"; "status"].

Section Search.
(** [str.lower], the lower-casing of the Unicode database. *)
Variable lower : string → string.

(** The list comprehension of [search_books]. *)
Definition search_results (bs : list Book) (key value : string)
  : list Book :=
  filter (λ book, lower (py_str (getattr book key (AStr ""))) = lower value)
         bs.

Definition search_books (key value : string) : M unit :=
  if bool_decide (key ∉ search_keys) then
    print "Ошибка: Неверный ключ поиска."
  else
    s ← get;
    let results := search_results (books s) key value in
    match results with
    | _ :: _ =>
        print "Найденные книги:";;
        for_each results (λ book, print (Book_str book))
    | [] => print "Книги не найдены."
    end.
End Search.

(** [str.lower] on the ASCII letters; Python agrees with it on every string
    of ASCII characters. *)
Definition ascii_lower_char (c : ascii) : ascii :=
  let n := nat_of_ascii c in
  if bool_decide (65 ≤ n ≤ 90)%nat then ascii_of_nat (n + 32) else c.

Fixpoint ascii_lower (s : string) : string :=
  match s with
  | EmptyString => EmptyString
  | String c s => String (ascii_lower_char c) (ascii_lower s)
  end.

Fixpoint is_ascii (s : string) : bool :=
  match s with
  | EmptyString => true
  | String c s => bool_decide (nat_of_ascii c < 128)%nat && is_ascii s
  end.

(** ** Runs of the store *)

(** The mutating calls that the menu makes on the library. *)
Inductive op : Type :=
  | Add (title author : string) (year : Z)
  | Remove (i : Z)
  | UpdateStatus (i : Z) (new_status : string).

Definition call (o : op) : M unit :=
  match o with
  | Add t a y => add_book t a y
  | Remove i => remove_book i
  | UpdateStatus i st => update_status i st
  end.

Definition calls (os : list op) : M unit := for_each os call.

(** The state in which a call ends; an exception leaves the state as it was
    when it was raised. *)
Definition state_of {A} (o : outcome A) (s0 : State) : State :=
  match o with
  | Return _ s => s
  | Raise _ s => s
  | Untyped => s0
  end.

(** The id that a call assigned: the id of the record that an [Add] left at
    the end of the catalog. *)
Definition new_ids (o : op) (s' : State) : list Z :=
  match o with
  | Add _ _ _ => from_option (λ b, [book_id b]) [] (last (books s'))
  | _ => []
  end.

(** The ids assigned along a run, in the order of the calls. *)
Fixpoint assigned_ids (os : list op) (s : State) : list Z :=
  match os with
  | [] => []
  | o :: os =>
      let s' := state_of (call o s) s in
      new_ids o s' ++ assigned_ids os s'
  end.

(** ** The menu

    The block under [if __name__ == "__main__"].  The lines typed are the
    list [stdin]; [input(prompt)] writes the prompt, recorded in [stdout] in
    the order of the writes like a printed line, and reads the next line;
    when there is none it raises [EOFError], which nothing catches. *)

(** How the process ends. *)
Inductive ending : Type :=
  | Exited (s : State)              (* [break] after the choice 6 *)
  | EndOfInput (s : State)          (* [EOFError] from [input] *)
  | Uncaught (e : exn) (s : State)  (* an exception that leaves the loop *)
  | Unmodelled                      (* a method left the typed model *).

(** The state after [text] was written. *)
Definition written (text : string) (s : State) : State :=
  mkState (books s) (current_id s) (disk s) (stdout s ++ [text]).

Definition menu_text : string :=
  "
1. Добавить книгу
2. Удалить книгу
3. Искать книгу
4. Показать все книги
5. Изменить статус книги
6. Выйти".

Definition input_error_message : string :=
  "Ошибка ввода. Убедитесь, что данные корректны.".

(** [except ValueError]: the class and its subclasses. *)
Definition is_ValueError (e : exn) : bool :=
  match e with
  | ValueError | UnicodeDecodeError | JSONDecodeError => true
  | _ => false
  end.

(** The end of an iteration whose [try] block called a method: the handler
    of [ValueError], then the next iteration. *)
Definition after_call (o : outcome unit) (next : State → ending) : ending :=
  match o with
  | Return _ s => next s
  | Raise e s =>
      if is_ValueError e then next (written input_error_message s)
      else Uncaught e s
  | Untyped => Unmodelled
  end.

Section Menu.
(** [str.lower] and [int] on a string ([None]: [ValueError]). *)
Variable lower : string → string.
Variable py_int : string → option Z.

(** [while True: ...] *)
Fixpoint main_loop (stdin : list string) (s : State) : ending :=
  let s := written menu_text s in
  let s := written "Выберите действие: " s in
  match stdin with
  | [] => EndOfInput s
  | choice :: stdin =>
      if decide (choice = "1") then
        let s := written "Введите название книги: " s in
        match stdin with
        | [] => EndOfInput s
        | title :: stdin =>
            let s := written "Введите автора книги: " s in
            match stdin with
            | [] => EndOfInput s
            | author :: stdin =>
                let s := written "Введите год издания книги: " s in
                match stdin with
                | [] => EndOfInput s
                | year :: stdin =>
                    match py_int year with
                    | Some year =>
                        after_call (add_book title author year s)
                                   (main_loop stdin)
                    | None =>
                        main_loop stdin (written input_error_message s)
                    end
                end
            end
        end
      else if decide (choice = "2") then
        let s := written "Введите ID книги для удаления: " s in
        match stdin with
        | [] => EndOfInput s
        | book_id :: stdin =>
            match py_int book_id with
            | Some book_id =>
                after_call (remove_book book_id s) (main_loop stdin)
            | None => main_loop stdin (written input_error_message s)
            end
        end
      else if decide (choice = "3") then
        let s := written "Искать по (title, author, year, status): " s in
        match stdin with
        | [] => EndOfInput s
        | key :: stdin =>
            let s := written "Введите значение для поиска: " s in
            match stdin with
            | [] => EndOfInput s
            | value :: stdin =>
                after_call (search_books lower (lower key) value s)
                           (main_loop stdin)
            end
        end
      else if decide (choice = "4") then
        after_call (display_books s) (main_loop stdin)
      else if decide (choice = "5") then
        let s := written "Введите ID книги для изменения статуса: " s in
        match stdin with
        | [] => EndOfInput s
        | book_id :: stdin =>
            match py_int book_id with
            | Some book_id =>
                let s := written "Введите новый статус книги: " s in
                match stdin with
                | [] => EndOfInput s
                | new_status :: stdin =>
                    after_call (update_status book_id new_status s)
                               (main_loop stdin)
                end
            | None => main_loop stdin (written input_error_message s)
            end
        end
      else if decide (choice = "6") then
        Exited (written "Выход из программы." s)
      else
        main_loop stdin (written "Ошибка: Неверный выбор." s)
  end.

(** The program: [library = Library()], then the loop. *)
Definition main (d : option file_content) (stdin : list string) : ending :=
  match Library_init d [] with
  | Return _ s => main_loop stdin s
  | Raise e s => Uncaught e s
  | Untyped => Unmodelled
  end.
End Menu.

(** ** Vocabulary of the statements *)

(** The counter after the loop of [load_books] has run over [bs]. *)
Definition next_after (c : Z) (bs : list Book) : Z :=
  foldl (λ c b, Z.max c (book_id b + 1)) c bs.

(** [m] is the largest id of [bs]. *)
Definition is_max_id (bs : list Book) (m : Z) : Prop :=
  (∃ b, b ∈ bs ∧ book_id b = m) ∧ ∀ b, b ∈ bs → book_id b ≤ m.

(** The counter that a load derives from the records [bs]: [1] for no
    record, otherwise the larger of [1] and the largest id plus one. *)
Definition derived_next_id (bs : list Book) (c : Z) : Prop :=
  (bs = [] → c = 1) ∧ ∀ m, is_max_id bs m → c = Z.max 1 (m + 1).

(** The object [o] of the file has the five fields of the record [b]; other
    fields are ignored. *)
Definition record_object (o : json) (b : Book) : Prop :=
  match o with
  | JObj kv =>
      dict_get "id" kv = Some (JInt (book_id b)) ∧
      dict_get "title" kv = Some (JStr (title b)) ∧
      dict_get "author" kv = Some (JStr (author b)) ∧
      dict_get "year" kv = Some (JInt (year b)) ∧
      dict_get "status" kv = Some (JStr (status b))
  | _ => False
  end.

(** The lines that [search_books] prints for the list of its results. *)
Definition search_report (results : list Book) : list string :=
  match results with
  | [] => ["Книги не найдены."]
  | _ :: _ => "Найденные книги:" :: (Book_str <$> results)
  end.

(** The ids of the catalog are pairwise distinct and below the counter. *)
Definition ids_fresh (s : State) : Prop :=
  NoDup (book_id <$> books s) ∧ Forall (λ b, book_id b < current_id s) (books s).

(** The keys that [from_dict] reads, in the order in which it reads them. *)
Definition record_keys : list string :=
  ["id"; "title"; "author"; "year"; "status"].

(** The backing file holds exactly the catalog, as [save_books] writes it. *)
Definition in_sync (s : State) : Prop :=
  disk s = Some (Json_text (JList (to_dict <$> books s))).

(** The document is a dictionary or a string with nothing in it. *)
Definition empty_container (doc : json) : bool :=
  match doc with
  | JObj [] => true
  | JStr EmptyString => true
  | _ => false
  end.

(** From [s] to [s'] the file and the output are the same, the records of
    [s] are still there, in front, and the counter is not lower. *)
Definition grows (s s' : State) : Prop :=
  disk s' = disk s ∧
  books s `prefix_of` books s' ∧
  current_id s ≤ current_id s' ∧
  stdout s' = stdout s.

(** A string of ASCII characters that [str.lower] leaves as it is. *)
Definition plain_ascii (t : string) : Prop :=
  is_ascii t = true ∧ ascii_lower t = t.

(** What the methods keep between calls: the records, the counter and the
    file. *)
Definition store (s : State) : list Book * Z * option file_content :=
  (books s, current_id s, disk s).

(** The loop over the lines [stdin] from the state [s] ended in [e]: by the
    choice 6, after its farewell, or at the end of the input; and the store
    that it leaves is the one that a sequence of calls of [add_book],
    [remove_book] and [update_status] leaves from [s]. *)
Definition runs_as (stdin : list string) (s : State) (e : ending) : Prop :=
  ∃ os s1 s',
    calls os s = Return tt s1 ∧
    store s' = store s1 ∧
    stdout s `prefix_of` stdout s' ∧
    ((e = Exited s' ∧ "6" ∈ stdin ∧
      last (stdout s') = Some "Выход из программы.") ∨
     e = EndOfInput s').

(** The entry gives integers to id and year and strings to title, author
    and status, where it binds these keys; entries that are not dictionaries
    bind none. *)
Definition typed_entry (o : json) : Prop :=
  match o with
  | JObj kv =>
      (∀ v, dict_get "id" kv = Some v → ∃ z, v = JInt z) ∧
      (∀ v, dict_get "title" kv = Some v → ∃ t, v = JStr t) ∧
      (∀ v, dict_get "author" kv = Some v → ∃ t, v = JStr t) ∧
      (∀ v, dict_get "year" kv = Some v → ∃ z, v = JInt z) ∧
      (∀ v, dict_get "status" kv = Some v → ∃ t, v = JStr t)
  | _ => True
  end.

(** A catalog of one book next to a file of two records and a third entry
    that lacks its fields. *)
Definition reloading : State :=
  mkState [mkBook 1 "Emma" "Austen" 1815 "loaned"] 2
    (Some (Json_text (JList
       [ JObj [("id", JInt 7); ("title", JStr "Dune");
               ("author", JStr "Herbert"); ("year", JInt 1965);
               ("status", JStr "loaned")];
         JObj [("id", JInt 3); ("title", JStr "Hobbit");
               ("author", JStr "Tolkien"); ("year", JInt 1937);
               ("status", JStr "в наличии")];
         JObj [("id", JInt 9)] ])))
    [].

(** ** Example states and files *)

(** An [int] for the examples: it reads plain decimal text, with a minus
    sign or without, as Python's [int] does; Python's reads more texts. *)
Definition digit_value (c : ascii) : option Z :=
  let n := nat_of_ascii c in
  if bool_decide (48 ≤ n ≤ 57)%nat then Some (Z.of_nat n - 48) else None.

Fixpoint decimal_digits (acc : Z) (t : string) : option Z :=
  match t with
  | EmptyString => Some acc
  | String c t =>
      match digit_value c with
      | Some d => decimal_digits (10 * acc + d) t
      | None => None
      end
  end.

Definition decimal_int (t : string) : option Z :=
  match t with
  | EmptyString => None
  | String "-" EmptyString => None
  | String "-" t' => Z.opp <$> decimal_digits 0 t'
  | _ => decimal_digits 0 t
  end.



Definition dune : Book := mkBook 1 "Dune" "Herbert" 1965 "available".
Definition hobbit : Book := mkBook 2 "Hobbit" "Tolkien" 1937 "unavailable".
Definition emma : Book := mkBook 3 "Emma" "Austen" 1815 "AVAILABLE".

(** Emma has the id of Hobbit. *)
Definition emma2 : Book := mkBook 2 "Emma" "Austen" 1815 "в наличии".

(** The first book as [add_book] creates it. *)
Definition dune_added : Book := mkBook 1 "Dune" "Herbert" 1965 "в наличии".

(** The state after two books were added and the second was removed. *)
Definition one_left : State :=
  mkState [dune_added] 3 (Some (Json_text (JList [to_dict dune_added])))
    ["Книга 'Dune' добавлена с ID 1.";
     "Книга 'Hobbit' добавлена с ID 2.";
     "Книга с ID 2 удалена."].

(** A record with a negative id, and the file that holds it. *)
Definition dune_negative : Book := mkBook (-5) "Dune" "Herbert" 1965 "loaned".
Definition negative_file : file_content :=
  Json_text (JList [to_dict dune_negative]).

(** Three books, no file. *)
Definition shelf : State := mkState [dune; hobbit; emma] 4 None [].

(** A catalog with a duplicated id, next to a file that is not JSON. *)
Definition shelf_dup : State :=
  mkState [dune; hobbit; emma2] 3 (Some Malformed) [].

Definition two_books : list Book :=
  [ mkBook 7 "Dune" "Herbert" 1965 "loaned";
    mkBook 3 "Hobbit" "Tolkien" 1937 "в наличии" ].

(** A file that holds [two_books], the fields of the first in another
    order. *)
Definition two_records : list json :=
  [ JObj [("title", JStr "Dune"); ("id", JInt 7); ("year", JInt 1965);
          ("author", JStr "Herbert"); ("status", JStr "loaned")];
    JObj [("id", JInt 3); ("title", JStr "Hobbit"); ("author", JStr "Tolkien");
          ("year", JInt 1937); ("status", JStr "в наличии")] ].

(** The lines of a session, and the state in which the program, started
    without a file, ends on them. *)
Definition session_input : list string :=
  ["1"; "Dune"; "Herbert"; "1965";
   "1"; "Hobbit"; "Tolkien"; "MCMXXXVII";
   "2"; "7"; "6"; "1"; "Emma"].

Definition session_end : State :=
  Eval vm_compute in
  match main ascii_lower decimal_int None session_input with
  | Exited s => s
  | _ => mkState [] 1 None []
  end.

(** * Properties *)

(** ** Lists: finding and removing the first match *)

Section first_match.
Context {A : Type} `{EqDecision A}.
Variable P : A → Prop.
Context `{∀ x, Decision (P x)}.

(** [list.remove] of the object that the search returned drops the entry
    at the index where the search found it. *)
Lemma list_remove_found (l : list A) (k : nat) (x : A) :
  list_find P l = Some (k, x) → list_remove x l = Some (delete k l).
Proof.
  revert k. induction l as [|y l IH]; intros k Hfind; [done|].
  cbn in Hfind. destruct (decide (P y)) as [Hy|Hy].
  - injection Hfind as <- <-. cbn. by rewrite decide_True.
  - destruct (list_find P l) as [[k' x']|] eqn:E; [|done].
    injection Hfind as <- <-. cbn.
    rewrite decide_False.
    + by rewrite (IH k' eq_refl).
    + intros ->. apply Hy.
      by apply list_find_Some in E as (_ & ? & _).
Qed.

(** The list around the first match. *)
Lemma list_find_split (l : list A) (k : nat) (x : A) :
  list_find P l = Some (k, x) →
  ∃ l1 l2, l = l1 ++ x :: l2 ∧ length l1 = k ∧ Forall (λ y, ¬ P y) l1.
Proof.
  intros (Hk & _ & Hfirst)%list_find_Some.
  exists (take k l), (drop (S k) l). split_and!.
  - by rewrite take_drop_middle.
  - apply length_take_le. apply lookup_lt_Some in Hk. lia.
  - apply Forall_forall. intros y [j Hj]%list_elem_of_lookup.
    apply lookup_take_Some in Hj as [Hj ?]. eauto.
Qed.

Lemma list_insert_middle (l1 l2 : list A) (x y : A) :
  <[length l1 := y]> (l1 ++ x :: l2) = l1 ++ y :: l2.
Proof. rewrite insert_app_r_alt by lia. by rewrite Nat.sub_diag. Qed.

Lemma list_find_first (l1 l2 : list A) (x : A) :
  Forall (λ y, ¬ P y) l1 → P x →
  list_find P (l1 ++ x :: l2) = Some (length l1, x).
Proof.
  intros Hl1 Hx. apply list_find_Some. split_and!.
  - by rewrite list_lookup_middle.
  - done.
  - intros j y Hj Hlt. rewrite lookup_app_l in Hj by done.
    rewrite Forall_forall in Hl1. apply Hl1.
    apply list_elem_of_lookup. eauto.
Qed.
End first_match.

(** ** Running the monad *)

(** Unfolds the monad operations in the goal and projects the fields of the
    states that result. *)
Ltac run_M :=
  cbv beta iota delta
    [mbind M_bind mret M_ret get set_books set_current_id write_file print
     raise untyped save_books];
  cbn [books current_id disk stdout].

(** ** add_book *)

Lemma add_book_run (t a : string) (y : Z) (s : State) :
  add_book t a y s =
  Return tt (mkState
    (books s ++ [Book_init (current_id s) t a y])
    (current_id s + 1)
    (Some (Json_text (JList (to_dict <$> books s ++ [Book_init (current_id s) t a y]))))
    (stdout s ++ [added_message t (current_id s)])).
Proof. reflexivity. Qed.

(** ** remove_book and update_status *)

Lemma remove_book_found (i : Z) (s : State) (k : nat) (b : Book) :
  list_find (λ book, book_id book = i) (books s) = Some (k, b) →
  remove_book i s =
  Return tt (mkState
    (delete k (books s))
    (current_id s)
    (Some (Json_text (JList (to_dict <$> delete k (books s)))))
    (stdout s ++ [removed_message i])).
Proof.
  intros Hfind. unfold remove_book. run_M. rewrite Hfind.
  by rewrite (list_remove_found _ _ _ _ Hfind).
Qed.

Lemma update_status_found (i : Z) (st : string) (s : State) (k : nat) (b : Book) :
  list_find (λ book, book_id book = i) (books s) = Some (k, b) →
  update_status i st s =
  Return tt (mkState
    (<[k := set_status b st]> (books s))
    (current_id s)
    (Some (Json_text (JList (to_dict <$> <[k := set_status b st]> (books s)))))
    (stdout s ++ [updated_message (title b) st])).
Proof. intros Hfind. unfold update_status. run_M. by rewrite Hfind. Qed.

Lemma remove_book_missing (i : Z) (s : State) :
  list_find (λ book, book_id book = i) (books s) = None →
  remove_book i s =
  Return tt (mkState (books s) (current_id s) (disk s)
                     (stdout s ++ [not_found_message i])).
Proof. intros Hfind. unfold remove_book. run_M. by rewrite Hfind. Qed.

Lemma update_status_missing (i : Z) (st : string) (s : State) :
  list_find (λ book, book_id book = i) (books s) = None →
  update_status i st s =
  Return tt (mkState (books s) (current_id s) (disk s)
                     (stdout s ++ [not_found_message i])).
Proof. intros Hfind. unfold update_status. run_M. by rewrite Hfind. Qed.

(** ** load_books *)

Lemma next_after_cons (c : Z) (b : Book) (bs : list Book) :
  next_after c (b :: bs) = next_after (Z.max c (book_id b + 1)) bs.
Proof. reflexivity. Qed.

Lemma next_after_bounds (bs : list Book) (c : Z) :
  c ≤ next_after c bs ∧
  (∀ b, b ∈ bs → book_id b + 1 ≤ next_after c bs) ∧
  (next_after c bs = c ∨ ∃ b, b ∈ bs ∧ next_after c bs = book_id b + 1).
Proof.
  revert c. induction bs as [|b bs IH]; intros c.
  - split_and!; [done | by intros ? ?%elem_of_nil | by left].
  - rewrite next_after_cons.
    destruct (IH (Z.max c (book_id b + 1))) as (Hle & Hall & Hlast).
    split_and!.
    + lia.
    + intros b' [->|Hin]%elem_of_cons; [lia | by apply Hall].
    + destruct Hlast as [Heq|(b' & Hin & Heq)].
      * destruct (Z.max_spec c (book_id b + 1)) as [[_ Hmax]|[_ Hmax]].
        -- right. exists b. split; [left | lia].
        -- left. lia.
      * right. exists b'. split; [by right | done].
Qed.

Lemma next_after_max (bs : list Book) (c m : Z) :
  is_max_id bs m → next_after c bs = Z.max c (m + 1).
Proof.
  intros [(bm & Hbm & <-) Hmax].
  destruct (next_after_bounds bs c) as (Hle & Hall & Hlast).
  specialize (Hall bm Hbm).
  destruct Hlast as [Heq|(b & Hb & Heq)]; [lia|].
  specialize (Hmax b Hb). lia.
Qed.

Lemma exists_max_id (bs : list Book) : bs ≠ [] → ∃ m, is_max_id bs m.
Proof.
  induction bs as [|b bs IH]; [done|]. intros _.
  destruct bs as [|b' bs].
  - exists (book_id b). split.
    + exists b. split; [left | done].
    + intros ? ->%list_elem_of_singleton. lia.
  - destruct IH as (m & (bm & Hbm & <-) & Hmax); [done|].
    destruct (Z.le_gt_cases (book_id b) (book_id bm)).
    + exists (book_id bm). split.
      * exists bm. split; [by right | done].
      * intros b0 [->|Hin]%elem_of_cons; [done | by apply Hmax].
    + exists (book_id b). split.
      * exists b. split; [left | done].
      * intros b0 [->|Hin]%elem_of_cons; [lia|].
        specialize (Hmax b0 Hin). lia.
Qed.

Lemma next_after_derived (bs : list Book) : derived_next_id bs (next_after 1 bs).
Proof.
  split.
  - by intros ->.
  - intros m Hm. by apply next_after_max.
Qed.

Lemma derived_next_id_unique (bs : list Book) (c c' : Z) :
  derived_next_id bs c → derived_next_id bs c' → c = c'.
Proof.
  intros [Hnil Hmax] [Hnil' Hmax'].
  destruct bs as [|b bs].
  - by rewrite Hnil, Hnil'.
  - destruct (exists_max_id (b :: bs)) as [m Hm]; [done|].
    by rewrite (Hmax m Hm), (Hmax' m Hm).
Qed.

Lemma from_dict_record (o : json) (b : Book) (s : State) :
  record_object o b → from_dict o s = Return b s.
Proof.
  destruct o as [| | | | |kv]; try done.
  intros (Hi & Ht & Ha & Hy & Hst).
  unfold from_dict, getitem. run_M.
  rewrite Hi, Ht, Ha, Hy, Hst. by destruct b.
Qed.

(** The loop of [load_books] over well-formed records. *)
Lemma load_loop (l : list json) (bs : list Book) :
  Forall2 record_object l bs →
  ∀ s,
    for_each l (λ book_data,
      book ← from_dict book_data;
      s ← get;
      set_books (books s ++ [book]);;
      set_current_id (Z.max (current_id s) (book_id book + 1))) s
    = Return tt (mkState (books s ++ bs) (next_after (current_id s) bs)
                         (disk s) (stdout s)).
Proof.
  induction 1 as [|o b l bs Hob _ IH]; intros s.
  - cbn. rewrite app_nil_r. by destruct s.
  - cbn [for_each]. unfold mbind at 1, M_bind at 1.
    unfold mbind at 1, M_bind at 1. rewrite (from_dict_record _ _ _ Hob).
    run_M. rewrite IH. cbn. by rewrite <-app_assoc.
Qed.

Lemma load_books_document (l : list json) (bs : list Book) (s : State) :
  disk s = Some (Json_text (JList l)) →
  Forall2 record_object l bs →
  load_books s =
  Return tt (mkState (books s ++ bs) (next_after (current_id s) bs)
                     (disk s) (stdout s)).
Proof.
  intros Hdisk Hl. unfold load_books.
  unfold mbind at 1, M_bind at 1, get at 1. rewrite Hdisk.
  unfold try_except, json_load, py_iter.
  unfold mbind at 1, M_bind at 1, mret at 1, M_ret at 1.
  unfold mbind at 1, M_bind at 1, mret at 1, M_ret at 1.
  by rewrite (load_loop _ _ Hl), Hdisk.
Qed.

Lemma to_dict_record (b : Book) : record_object (to_dict b) b.
Proof. by repeat split. Qed.

Lemma to_dict_records (bs : list Book) :
  Forall2 record_object (to_dict <$> bs) bs.
Proof. induction bs; constructor; auto using to_dict_record. Qed.

(** A file whose text is not JSON: the diagnostic is printed, the catalog
    stays empty and the file is not written. *)
Lemma load_malformed (out : list string) :
  Library_init (Some Malformed) out =
  Return tt (mkState [] 1 (Some Malformed) (out ++ [load_error_message])).
Proof. reflexivity. Qed.

(** No file: the catalog starts empty and nothing is printed. *)
Lemma load_absent (out : list string) :
  Library_init None out = Return tt (mkState [] 1 None out).
Proof. reflexivity. Qed.

(** A document that parses but lacks a field of a record ends the process
    with a [KeyError]. *)
Example load_missing_field :
  Library_init (Some (Json_text (JList [JObj [("id", JInt 1)]]))) [] =
  Raise (KeyError "title")
        (mkState [] 1 (Some (Json_text (JList [JObj [("id", JInt 1)]]))) []).
Proof. reflexivity. Qed.

(** * The claims *)

(** ** Saving and loading *)

(** C1 (as stated, refuted).  Two books are added and the second is removed:
    the catalog [one_left] holds the book with id 1 and its counter is 3.
    Saving it and loading the file in a new [Library()] gives back the same
    record, but the counter 2: the file does not hold the counter. *)
Lemma save_then_load_loses_next_id :
  calls [Add "Dune" "Herbert" 1965; Add "Hobbit" "Tolkien" 1937; Remove 2]
        (mkState [] 1 None []) = Return tt one_left ∧
  save_books one_left = Return tt one_left ∧
  Library_init (disk one_left) [] =
    Return tt (mkState [dune_added] 2 (disk one_left) []) ∧
  current_id one_left = 3.
Proof. split_and!; vm_compute; reflexivity. Qed.

(** C1 (amended).  For every catalog, [save_books] followed by the load of a
    new [Library()] on the file written returns with the identical ordered
    sequence of records, prints nothing and leaves the file as written.  The
    counter is not stored: after the load it is 1 for an empty catalog and
    otherwise the larger of 1 and the largest id plus one, which is the
    counter of the saved catalog exactly when that counter had this value. *)
Theorem save_then_load (s : State) (out : list string) :
  ∃ s1 s2,
    save_books s = Return tt s1 ∧
    Library_init (disk s1) out = Return tt s2 ∧
    books s2 = books s ∧
    disk s2 = disk s1 ∧
    stdout s2 = out ∧
    derived_next_id (books s) (current_id s2) ∧
    (current_id s2 = current_id s ↔ derived_next_id (books s) (current_id s)).
Proof.
  eexists _, _. split; [reflexivity|]. cbn [disk].
  unfold Library_init.
  rewrite (load_books_document (to_dict <$> books s) (books s));
    [|reflexivity|apply to_dict_records].
  cbn [books current_id disk stdout app].
  split_and!; try done.
  - apply next_after_derived.
  - split.
    + intros <-. apply next_after_derived.
    + intros Hs. eapply derived_next_id_unique; [|exact Hs].
      apply next_after_derived.
Qed.

(** C3 (the code departs from the claim).  A backing file whose bytes are
    not UTF-8 is not valid JSON either, yet [load_books] catches only
    [json.JSONDecodeError]: the [UnicodeDecodeError] that reading the file
    raises leaves [Library()] uncaught, before anything is printed. *)
Theorem load_undecodable_raises (out : list string) :
  Library_init (Some Undecodable) out =
  Raise UnicodeDecodeError (mkState [] 1 (Some Undecodable) out).
Proof. reflexivity. Qed.

(** C4 (as stated, refuted).  A well-formed file with the single record of
    id -5: the largest id plus one is -4, the counter after the load is 1. *)
Lemma load_negative_id_next_id :
  Library_init (Some negative_file) [] =
    Return tt (mkState [dune_negative] 1 (Some negative_file) []) ∧
  is_max_id [dune_negative] (-5) ∧
  1 ≠ -5 + 1.
Proof.
  split_and!.
  - vm_compute. reflexivity.
  - split.
    + exists dune_negative. split; [left | reflexivity].
    + by intros b ->%list_elem_of_singleton.
  - lia.
Qed.

(** C4 (amended).  For every well-formed backing file (a list of objects,
    each with the five fields of a record), the load of [Library()] returns
    with exactly the records of the file in the order of the file, and the
    counter is 1 when the file has no record and otherwise the larger of 1
    and the largest id loaded plus one.  Nothing is printed and the file is
    not written. *)
Theorem load_well_formed (l : list json) (bs : list Book) (out : list string) :
  Forall2 record_object l bs →
  ∃ s,
    Library_init (Some (Json_text (JList l))) out = Return tt s ∧
    books s = bs ∧
    derived_next_id bs (current_id s) ∧
    disk s = Some (Json_text (JList l)) ∧
    stdout s = out.
Proof.
  intros Hl. eexists. split.
  - unfold Library_init. by rewrite (load_books_document l bs).
  - cbn. split_and!; try done. apply next_after_derived.
Qed.

Lemma load_well_formed_witness :
  Forall2 record_object two_records two_books ∧
  ∃ s,
    Library_init (Some (Json_text (JList two_records))) [] = Return tt s ∧
    books s = two_books ∧
    derived_next_id two_books (current_id s) ∧
    disk s = Some (Json_text (JList two_records)) ∧
    stdout s = [].
Proof.
  assert (H : Forall2 record_object two_records two_books)
    by (repeat constructor).
  split; [exact H | exact (load_well_formed two_records two_books [] H)].
Defined.

(** ** add_book *)

(** C2 (as stated, refuted).  The record that [add_book] creates has the
    status that [Book.__init__] defaults to, which is not the text
    "available". *)
Lemma add_book_default_status_differs :
  add_book "Dune" "Herbert" 1965 (mkState [] 1 None []) =
    Return tt (mkState [dune_added] 2
                 (Some (Json_text (JList [to_dict dune_added])))
                 ["Книга 'Dune' добавлена с ID 1."]) ∧
  status dune_added ≠ "available".
Proof. split; [vm_compute; reflexivity | discriminate]. Qed.

(** C2 (amended).  For every state and every title, author and year,
    [add_book] returns: it appends at the end of the catalog a record with
    the id of the current counter, the given title, author and year and the
    default status "в наличии", increments the counter by one, writes the
    new catalog to the backing file and prints a confirmation that carries
    the assigned id. *)
Theorem add_book_spec (s : State) (t a : string) (y : Z) :
  ∃ s',
    add_book t a y s = Return tt s' ∧
    books s' = books s ++ [mkBook (current_id s) t a y "в наличии"] ∧
    current_id s' = current_id s + 1 ∧
    disk s' = Some (Json_text (JList (to_dict <$> books s'))) ∧
    stdout s' = stdout s ++
      ["Книга '" +:+ t +:+ "' добавлена с ID " +:+ str_int (current_id s) +:+ "."].
Proof. eexists. split; [apply add_book_run|]. by split_and!. Qed.

(** ** search_books *)

Lemma for_each_print {A} (f : A → string) (l : list A) (s : State) :
  for_each l (λ x, print (f x)) s =
  Return tt (mkState (books s) (current_id s) (disk s) (stdout s ++ (f <$> l))).
Proof.
  revert s. induction l as [|x l IH]; intros s.
  - cbn. rewrite app_nil_r. by destruct s.
  - cbn [for_each]. unfold mbind, M_bind. unfold print at 1.
    rewrite IH. cbn. by rewrite <-app_assoc.
Qed.

Lemma search_books_valid (lower : string → string) (key value : string)
    (s : State) :
  key ∈ search_keys →
  search_books lower key value s =
  Return tt (mkState (books s) (current_id s) (disk s)
    (stdout s ++ search_report (search_results lower (books s) key value))).
Proof.
  intros Hkey. unfold search_books.
  rewrite bool_decide_eq_false_2 by (by intros ?).
  unfold mbind, M_bind, get.
  destruct (search_results lower (books s) key value) as [|b bs]; [done|].
  unfold print at 1. rewrite for_each_print. cbn. by rewrite <-app_assoc.
Qed.

Lemma search_books_invalid (lower : string → string) (key value : string)
    (s : State) :
  key ∉ search_keys →
  search_books lower key value s =
  Return tt (mkState (books s) (current_id s) (disk s)
    (stdout s ++ ["Ошибка: Неверный ключ поиска."])).
Proof. intros Hkey. unfold search_books. by rewrite bool_decide_eq_true_2. Qed.

(** C5.  For a key among title, author, year and status, [search_books]
    finds exactly the records, in catalog order, for which [str] of the
    attribute and the value searched are equal once both are lower-cased (an
    exact match of the whole text), prints them under a header (or that
    nothing was found) and changes neither the catalog, the counter nor the
    file; for any other key it prints that the key is invalid and nothing
    else.  Searching status for "Available" finds every record of status
    "available" and no record of status "unavailable".  [lower] is
    [str.lower], of which only its action on ASCII text is assumed. *)
Theorem search_books_spec (lower : string → string) (s : State)
    (key value : string) :
  (∀ t, is_ascii t = true → lower t = ascii_lower t) →
  search_results lower (books s) "title" value =
    filter (λ b, lower (title b) = lower value) (books s) ∧
  search_results lower (books s) "author" value =
    filter (λ b, lower (author b) = lower value) (books s) ∧
  search_results lower (books s) "year" value =
    filter (λ b, lower (str_int (year b)) = lower value) (books s) ∧
  search_results lower (books s) "status" value =
    filter (λ b, lower (status b) = lower value) (books s) ∧
  (key ∈ ["title"; "author"; "year"; "status"] →
   search_books lower key value s =
   Return tt (mkState (books s) (current_id s) (disk s)
     (stdout s ++
      match search_results lower (books s) key value with
      | [] => ["Книги не найдены."]
      | hits => "Найденные книги:" :: (Book_str <$> hits)
      end))) ∧
  (key ∉ ["title"; "author"; "year"; "status"] →
   search_books lower key value s =
   Return tt (mkState (books s) (current_id s) (disk s)
     (stdout s ++ ["Ошибка: Неверный ключ поиска."]))) ∧
  (∀ b, b ∈ books s → status b = "available" →
        b ∈ search_results lower (books s) "status" "Available") ∧
  (∀ b, status b = "unavailable" →
        b ∉ search_results lower (books s) "status" "Available").
Proof.
  intros Hlower. split_and!; try reflexivity.
  - intros Hkey. rewrite (search_books_valid lower key value s Hkey).
    unfold search_report. by destruct (search_results _ _ _ _).
  - apply search_books_invalid.
  - intros b Hb Hst. apply list_elem_of_filter. split; [|done].
    change (lower (status b) = lower "Available").
    rewrite Hst. by rewrite !Hlower.
  - intros b Hst [Hhit _]%list_elem_of_filter.
    change (lower (status b) = lower "Available") in Hhit.
    rewrite Hst in Hhit. by rewrite !Hlower in Hhit.
Qed.

Lemma search_books_spec_witness :
  (∀ t, is_ascii t = true → ascii_lower t = ascii_lower t) ∧
  search_books ascii_lower "status" "Available" shelf =
  Return tt (mkState [dune; hobbit; emma] 4 None
    ["Найденные книги:";
     "ID: 1, Title: Dune, Author: Herbert, Year: 1965, Status: available";
     "ID: 3, Title: Emma, Author: Austen, Year: 1815, Status: AVAILABLE"]) ∧
  dune ∈ search_results ascii_lower (books shelf) "status" "Available" ∧
  hobbit ∉ search_results ascii_lower (books shelf) "status" "Available".
Proof.
  assert (H : ∀ t, is_ascii t = true → ascii_lower t = ascii_lower t)
    by reflexivity.
  destruct (search_books_spec ascii_lower shelf "status" "Available" H)
    as (_ & _ & _ & _ & Hvalid & _ & Hin & Hout).
  split_and!.
  - exact H.
  - apply Hvalid. repeat constructor.
  - apply Hin; [left | reflexivity].
  - apply Hout. reflexivity.
Defined.

(** ** remove_book and update_status *)

Lemma find_id_missing (i : Z) (bs : list Book) :
  (∀ b, b ∈ bs → book_id b ≠ i) →
  list_find (λ book, book_id book = i) bs = None.
Proof. intros Hno. apply list_find_None, Forall_forall. exact Hno. Qed.

(** C8.  When no record of the catalog has the id, [remove_book] and
    [update_status] both return after printing the line that says the book
    was not found, a line that neither prints on success; the records, the
    counter and the backing file are as before. *)
Theorem not_found_no_change (s : State) (i : Z) (new_status : string) :
  (∀ b, b ∈ books s → book_id b ≠ i) →
  remove_book i s =
    Return tt (mkState (books s) (current_id s) (disk s)
      (stdout s ++ ["Ошибка: Книга с ID " +:+ str_int i +:+ " не найдена."])) ∧
  update_status i new_status s =
    Return tt (mkState (books s) (current_id s) (disk s)
      (stdout s ++ ["Ошибка: Книга с ID " +:+ str_int i +:+ " не найдена."])) ∧
  (∀ j, not_found_message i ≠ removed_message j) ∧
  (∀ t st, not_found_message i ≠ updated_message t st).
Proof.
  intros Hno. apply find_id_missing in Hno. split_and!.
  - by apply remove_book_missing.
  - by apply update_status_missing.
  - intros j. unfold not_found_message, removed_message.
    cbv [String.append]. intros [=].
  - intros t st. unfold not_found_message, updated_message.
    cbv [String.append]. intros [=].
Qed.

Lemma not_found_no_change_witness :
  (∀ b, b ∈ books shelf_dup → book_id b ≠ 9) ∧
  remove_book 9 shelf_dup =
    Return tt (mkState [dune; hobbit; emma2] 3 (Some Malformed)
                       ["Ошибка: Книга с ID 9 не найдена."]) ∧
  update_status 9 "loaned" shelf_dup =
    Return tt (mkState [dune; hobbit; emma2] 3 (Some Malformed)
                       ["Ошибка: Книга с ID 9 не найдена."]).
Proof.
  assert (H : ∀ b, b ∈ books shelf_dup → book_id b ≠ 9).
  { intros b Hb. cbn in Hb. rewrite !elem_of_cons in Hb.
    destruct Hb as [->|[->|[->|[]%elem_of_nil]]]; cbn; lia. }
  destruct (not_found_no_change shelf_dup 9 "loaned" H) as (Hr & Hu & _).
  split_and!; [exact H | exact Hr | exact Hu].
Defined.

(** C9.  When a record has the id, the catalog splits around the first
    such record [b]: [remove_book] returns with the records before and after
    it, in their order and unchanged, and [update_status] returns with [b]
    replaced in place by a record of the same id, title, author and year and
    the new status, the other records unchanged; neither changes the
    counter. *)
Theorem remove_update_frame (s : State) (i : Z) (new_status : string) :
  (∃ b, b ∈ books s ∧ book_id b = i) →
  ∃ l1 b l2,
    books s = l1 ++ b :: l2 ∧
    book_id b = i ∧
    (∃ s', remove_book i s = Return tt s' ∧
           books s' = l1 ++ l2 ∧
           current_id s' = current_id s) ∧
    (∃ s', update_status i new_status s = Return tt s' ∧
           books s' =
             l1 ++ mkBook (book_id b) (title b) (author b) (year b) new_status
                :: l2 ∧
           current_id s' = current_id s).
Proof.
  intros (b0 & Hin & Hid).
  destruct (list_find_elem_of (λ book, book_id book = i) (books s) b0 Hin Hid)
    as [[k b] Hfind].
  destruct (list_find_split _ _ _ _ Hfind) as (l1 & l2 & Hsplit & Hlen & _).
  pose proof Hfind as (_ & Hb & _)%list_find_Some.
  exists l1, b, l2. split_and!; [done | done | |].
  - eexists. split; [exact (remove_book_found _ _ _ _ Hfind)|].
    cbn [books current_id]. split; [|done].
    rewrite Hsplit, <-Hlen. by rewrite delete_middle.
  - eexists. split; [exact (update_status_found _ new_status _ _ _ Hfind)|].
    cbn [books current_id]. split; [|done].
    rewrite Hsplit, <-Hlen. by rewrite list_insert_middle.
Qed.

Lemma remove_update_frame_witness :
  (∃ b, b ∈ books shelf ∧ book_id b = 2) ∧
  ∃ l1 b l2,
    books shelf = l1 ++ b :: l2 ∧
    book_id b = 2 ∧
    (∃ s', remove_book 2 shelf = Return tt s' ∧
           books s' = l1 ++ l2 ∧
           current_id s' = current_id shelf) ∧
    (∃ s', update_status 2 "loaned" shelf = Return tt s' ∧
           books s' =
             l1 ++ mkBook (book_id b) (title b) (author b) (year b) "loaned"
                :: l2 ∧
           current_id s' = current_id shelf).
Proof.
  assert (H : ∃ b, b ∈ books shelf ∧ book_id b = 2).
  { exists hobbit. split; [right; left | reflexivity]. }
  split; [exact H | exact (remove_update_frame shelf 2 "loaned" H)].
Defined.

(** C10.  When the first record with the id is at position [k] and another
    record with the same id is at a later position [j], [remove_book] drops
    the record at position [k] only: the records before it keep their
    positions, those after it move up by one, and the later duplicate is
    still there, unchanged; [update_status] rewrites the status of the record
    at position [k] only: that position then holds a record with the id,
    title, author and year it had and the new status, and every other
    position, that of the later duplicate included, holds the record it
    held. *)
Theorem first_duplicate_only (s : State) (i : Z) (new_status : string)
    (k j : nat) (bk bj : Book) :
  books s !! k = Some bk →
  book_id bk = i →
  (∀ m b, (m < k)%nat → books s !! m = Some b → book_id b ≠ i) →
  (k < j)%nat →
  books s !! j = Some bj →
  book_id bj = i →
  (∃ s', remove_book i s = Return tt s' ∧
         length (books s') = (length (books s) - 1)%nat ∧
         (∀ m, (m < k)%nat → books s' !! m = books s !! m) ∧
         (∀ m, (k ≤ m)%nat → books s' !! m = books s !! S m) ∧
         books s' !! (j - 1)%nat = Some bj) ∧
  (∃ s', update_status i new_status s = Return tt s' ∧
         length (books s') = length (books s) ∧
         books s' !! k =
           Some (mkBook (book_id bk) (title bk) (author bk) (year bk)
                        new_status) ∧
         (∀ m, m ≠ k → books s' !! m = books s !! m) ∧
         books s' !! j = Some bj).
Proof.
  intros Hk Hidk Hfirst Hkj Hj Hidj.
  assert (Hfind : list_find (λ book, book_id book = i) (books s) = Some (k, bk)).
  { apply list_find_Some. split_and!; [done | done |].
    intros m b Hm Hlt. by apply (Hfirst m b). }
  pose proof (lookup_lt_Some _ _ _ Hk) as Hklen.
  split.
  - eexists. split; [exact (remove_book_found _ _ _ _ Hfind)|].
    cbn [books]. split_and!.
    + rewrite length_delete; [lia | by eexists].
    + intros m Hm. by apply list_lookup_delete_lt.
    + intros m Hm. by apply list_lookup_delete_ge.
    + rewrite list_lookup_delete_ge by lia.
      by replace (S (j - 1)) with j by lia.
  - eexists. split; [exact (update_status_found _ new_status _ _ _ Hfind)|].
    cbn [books]. split_and!.
    + apply length_insert.
    + by apply list_lookup_insert_eq.
    + intros m Hm. by apply list_lookup_insert_ne.
    + rewrite list_lookup_insert_ne by lia. done.
Qed.

Lemma first_duplicate_only_witness :
  (∃ s', remove_book 2 shelf_dup = Return tt s' ∧
         length (books s') = (length (books shelf_dup) - 1)%nat ∧
         (∀ m, (m < 1)%nat → books s' !! m = books shelf_dup !! m) ∧
         (∀ m, (1 ≤ m)%nat → books s' !! m = books shelf_dup !! S m) ∧
         books s' !! (2 - 1)%nat = Some emma2) ∧
  (∃ s', update_status 2 "loaned" shelf_dup = Return tt s' ∧
         length (books s') = length (books shelf_dup) ∧
         books s' !! 1%nat = Some (mkBook 2 "Hobbit" "Tolkien" 1937 "loaned") ∧
         (∀ m, m ≠ 1%nat → books s' !! m = books shelf_dup !! m) ∧
         books s' !! 2%nat = Some emma2).
Proof.
  apply (first_duplicate_only shelf_dup 2 "loaned" 1 2 hobbit emma2).
  - reflexivity.
  - reflexivity.
  - intros m b Hm Hb. assert (m = 0%nat) as -> by lia.
    cbn in Hb. injection Hb as <-. cbn. lia.
  - lia.
  - reflexivity.
  - reflexivity.
Defined.

(** The catalog of [shelf_dup] is what a load makes of a file with a
    duplicated id. *)
Example load_duplicate_ids :
  Library_init (Some (Json_text (JList (to_dict <$> [dune; hobbit; emma2])))) [] =
  Return tt (mkState [dune; hobbit; emma2] 3
    (Some (Json_text (JList (to_dict <$> [dune; hobbit; emma2])))) []).
Proof. reflexivity. Qed.

(** ** Runs: the counter and the ids *)

Lemma call_returns (o : op) (s : State) : ∃ s', call o s = Return tt s'.
Proof.
  destruct o as [t a y|i|i st]; cbn [call].
  - eexists. apply add_book_run.
  - destruct (list_find (λ book, book_id book = i) (books s)) as [[k b]|] eqn:E.
    + eexists. by eapply remove_book_found.
    + eexists. by apply remove_book_missing.
  - destruct (list_find (λ book, book_id book = i) (books s)) as [[k b]|] eqn:E.
    + eexists. by eapply update_status_found.
    + eexists. by apply update_status_missing.
Qed.

Lemma calls_cons (o : op) (os : list op) (s s' : State) :
  call o s = Return tt s' → calls (o :: os) s = calls os s'.
Proof. intros Ho. unfold calls. cbn [for_each]. run_M. by rewrite Ho. Qed.

(** The counter moves only in [add_book], by one. *)
Lemma call_current_id (o : op) (s s' : State) :
  call o s = Return tt s' →
  current_id s' = match o with Add _ _ _ => current_id s + 1 | _ => current_id s end.
Proof.
  destruct o as [t a y|i|i st]; cbn [call].
  - rewrite add_book_run. by intros [= <-].
  - destruct (list_find (λ book, book_id book = i) (books s)) as [[k b]|] eqn:E.
    + rewrite (remove_book_found _ _ _ _ E). by intros [= <-].
    + rewrite (remove_book_missing _ _ E). by intros [= <-].
  - destruct (list_find (λ book, book_id book = i) (books s)) as [[k b]|] eqn:E.
    + rewrite (update_status_found _ _ _ _ _ E). by intros [= <-].
    + rewrite (update_status_missing _ _ _ E). by intros [= <-].
Qed.

Lemma call_new_ids (o : op) (s s' : State) :
  call o s = Return tt s' →
  new_ids o s' = match o with Add _ _ _ => [current_id s] | _ => [] end.
Proof.
  destruct o as [t a y|i|i st]; cbn [call new_ids]; [|done..].
  rewrite add_book_run. intros [= <-]. cbn [books]. by rewrite last_snoc.
Qed.

Lemma assigned_ids_from (os : list op) (s : State) :
  StronglySorted Z.lt (assigned_ids os s) ∧
  Forall (λ i, current_id s ≤ i) (assigned_ids os s).
Proof.
  revert s. induction os as [|o os IH]; intros s; cbn [assigned_ids].
  - split; constructor.
  - destruct (call_returns o s) as [s' Hs']. rewrite Hs'. cbn [state_of].
    rewrite (call_new_ids _ _ _ Hs').
    pose proof (call_current_id _ _ _ Hs') as Hc.
    destruct (IH s') as [Hsorted Hfrom].
    destruct o; cbn [app].
    + split.
      * constructor; [done|]. eapply Forall_impl; [exact Hfrom|].
        cbn. intros; lia.
      * constructor; [lia|]. eapply Forall_impl; [exact Hfrom|].
        cbn. intros; lia.
    + rewrite Hc in Hfrom. done.
    + rewrite Hc in Hfrom. done.
Qed.

Lemma ids_fresh_call (o : op) (s s' : State) :
  ids_fresh s → call o s = Return tt s' → ids_fresh s'.
Proof.
  intros [Hnodup Hlt]. destruct o as [t a y|i|i st]; cbn [call].
  - rewrite add_book_run. intros [= <-]. split; cbn [books current_id].
    + rewrite fmap_app. apply NoDup_app. split_and!.
      * done.
      * intros x (b & -> & Hb)%list_elem_of_fmap Hx%list_elem_of_singleton.
        rewrite Forall_forall in Hlt. specialize (Hlt b Hb).
        cbn in Hlt, Hx. lia.
      * apply NoDup_singleton.
    + apply Forall_app. split.
      * eapply Forall_impl; [exact Hlt|]. cbn. intros; lia.
      * constructor; [cbn; lia | constructor].
  - destruct (list_find (λ book, book_id book = i) (books s)) as [[k b]|] eqn:E.
    + rewrite (remove_book_found _ _ _ _ E). intros [= <-].
      split; cbn [books current_id].
      * assert (Hsub : book_id <$> delete k (books s)
                         `sublist_of` book_id <$> books s)
          by (rewrite list_fmap_delete; apply sublist_delete).
        exact (sublist_NoDup _ _ Hnodup Hsub).
      * by apply Forall_delete.
    + rewrite (remove_book_missing _ _ E). by intros [= <-].
  - destruct (list_find (λ book, book_id book = i) (books s)) as [[k b]|] eqn:E.
    + rewrite (update_status_found _ _ _ _ _ E). intros [= <-].
      apply list_find_Some in E as (Hk & _ & _).
      split; cbn [books current_id].
      * rewrite list_fmap_insert. cbn [set_status book_id].
        rewrite list_insert_id; [done|]. by rewrite list_lookup_fmap, Hk.
      * apply Forall_insert; [done|]. cbn [set_status book_id].
        rewrite Forall_forall in Hlt. apply Hlt.
        apply list_elem_of_lookup. eauto.
    + rewrite (update_status_missing _ _ _ E). by intros [= <-].
Qed.

Lemma ids_fresh_calls (os : list op) (s : State) :
  ids_fresh s → ∃ s', calls os s = Return tt s' ∧ ids_fresh s'.
Proof.
  revert s. induction os as [|o os IH]; intros s Hs.
  - by exists s.
  - destruct (call_returns o s) as [s1 Hs1].
    rewrite (calls_cons _ _ _ _ Hs1). apply IH. by eapply ids_fresh_call.
Qed.

(** C6.  Along every sequence of calls of [add_book], [remove_book] and
    [update_status], from any state, every call returns and the ids that the
    calls of [add_book] assign are strictly increasing in the order of the
    calls: each is greater than every id assigned before it, whether the
    record that received it is still in the catalog or was removed.  None is
    below the counter at the start of the run. *)
Theorem assigned_ids_increase (os : list op) (s : State) :
  (∃ s', calls os s = Return tt s') ∧
  StronglySorted Z.lt (assigned_ids os s) ∧
  Forall (λ i, current_id s ≤ i) (assigned_ids os s).
Proof.
  split; [|apply assigned_ids_from].
  revert s. induction os as [|o os IH]; intros s.
  - by exists s.
  - destruct (call_returns o s) as [s1 Hs1].
    rewrite (calls_cons _ _ _ _ Hs1). apply IH.
Qed.

(** C7.  Every sequence of calls of [add_book], [remove_book] and
    [update_status] on the empty catalog returns, in a state whose record ids
    are pairwise distinct and all below the counter; and from that state any
    single call returns with a counter that is not lower. *)
Theorem reachable_ids_distinct (os : list op) (d : option file_content)
    (out : list string) :
  ∃ s,
    calls os (mkState [] 1 d out) = Return tt s ∧
    NoDup (book_id <$> books s) ∧
    (∀ b, b ∈ books s → book_id b < current_id s) ∧
    (∀ o, ∃ s', call o s = Return tt s' ∧ current_id s ≤ current_id s').
Proof.
  destruct (ids_fresh_calls os (mkState [] 1 d out)) as (s & Hs & Hnodup & Hlt).
  { split; cbn; constructor. }
  exists s. split_and!; [done | done | by apply Forall_forall |].
  intros o. destruct (call_returns o s) as [s' Hs']. exists s'.
  split; [done|]. rewrite (call_current_id _ _ _ Hs'). destruct o; lia.
Qed.

(** The scenario of the menu: ids 1 and 2 are assigned, the book of id 1 is
    removed, and the next book receives 3. *)
Example assigned_ids_scenario :
  assigned_ids
    [Add "Dune" "Herbert" 1965; Add "Hobbit" "Tolkien" 1937; Remove 1;
     Add "Foundation" "Asimov" 1951; UpdateStatus 3 "loaned"]
    (mkState [] 1 None []) = [1; 2; 3].
Proof. reflexivity. Qed.

(** The run of the menu from no backing file: Dune receives 1 and Hobbit 2,
    Dune is removed, Foundation receives 3 and is loaned; Hobbit keeps its
    status and the file holds the two records left. *)
Example menu_scenario :
  (load_books;;
   calls [Add "Dune" "Herbert" 1965; Add "Hobbit" "Tolkien" 1937; Remove 1;
          Add "Foundation" "Asimov" 1951; UpdateStatus 3 "loaned"])
    (mkState [] 1 None []) =
  Return tt (mkState
    [mkBook 2 "Hobbit" "Tolkien" 1937 "в наличии";
     mkBook 3 "Foundation" "Asimov" 1951 "loaned"]
    4
    (Some (Json_text (JList
       [to_dict (mkBook 2 "Hobbit" "Tolkien" 1937 "в наличии");
        to_dict (mkBook 3 "Foundation" "Asimov" 1951 "loaned")])))
    ["Книга 'Dune' добавлена с ID 1.";
     "Книга 'Hobbit' добавлена с ID 2.";
     "Книга с ID 1 удалена.";
     "Книга 'Foundation' добавлена с ID 3.";
     "Статус книги 'Foundation' обновлен на 'loaned'."]).
Proof. vm_compute. reflexivity. Qed.

(** * Further properties *)

(** ** Book.to_dict and Book.from_dict *)

(** [from_dict] leaves the state alone and raises only [KeyError] and
    [TypeError]. *)
Lemma from_dict_cases (data : json) (s : State) :
  (∃ b, from_dict data s = Return b s ∧ record_object data b) ∨
  (∃ e, from_dict data s = Raise e s ∧ is_JSONDecodeError e = false) ∨
  from_dict data s = Untyped.
Proof.
  destruct data as [| | | | |kv];
    try (right; left; exists TypeError; by split).
  unfold from_dict, getitem. run_M.
  destruct (dict_get "id" kv) as [i|] eqn:Hi;
    [|right; left; eexists; by split].
  destruct (dict_get "title" kv) as [t|] eqn:Ht;
    [|right; left; eexists; by split].
  destruct (dict_get "author" kv) as [a|] eqn:Ha;
    [|right; left; eexists; by split].
  destruct (dict_get "year" kv) as [y|] eqn:Hy;
    [|right; left; eexists; by split].
  destruct (dict_get "status" kv) as [st|] eqn:Hst;
    [|right; left; eexists; by split].
  destruct i; try (by right; right).
  destruct t; try (by right; right).
  destruct a; try (by right; right).
  destruct y; try (by right; right).
  destruct st; try (by right; right).
  left. eexists. split; [reflexivity|]. cbn. by rewrite Hi, Ht, Ha, Hy, Hst.
Qed.

(** X1.  [from_dict] undoes [to_dict]: the dictionary of a book decodes to
    that book, in any state and without touching the state; so two books
    with the same dictionary are the same book. *)
Theorem from_dict_to_dict (b : Book) (s : State) :
  from_dict (to_dict b) s = Return b s ∧
  ∀ b', to_dict b' = to_dict b → b' = b.
Proof.
  split.
  - apply from_dict_record, to_dict_record.
  - intros b' Heq. destruct b, b'. by injection Heq as -> -> -> -> ->.
Qed.

Lemma Book_of_values_no_raise (i t a y st : json) (s s' : State) (e : exn) :
  Book_of_values i t a y st s ≠ Raise e s'.
Proof.
  destruct i; try done. destruct t; try done. destruct a; try done.
  destruct y; try done. by destruct st.
Qed.

(** X2.  A dictionary that binds the five keys to the values of a book, in
    any order and among any further keys, decodes to that book, the state as
    before.  And [from_dict] raises exactly when its argument is not a
    dictionary or is a dictionary that lacks one of the five keys: the
    values bound to the keys play no part in that. *)
Theorem from_dict_outcome (data : json) (s : State) :
  (∀ b, record_object data b → from_dict data s = Return b s) ∧
  ((∃ e s', from_dict data s = Raise e s') ↔
   ¬ ∃ kv, data = JObj kv ∧
            Forall (λ k, is_Some (dict_get k kv))
                   ["id"; "title"; "author"; "year"; "status"]).
Proof.
  split; [intros b Hb; by apply from_dict_record|].
  destruct data as [| | | | |kv];
    try (split; [intros _ (kv & [=] & _) | intros _; by exists TypeError, s]).
  unfold from_dict, getitem. run_M.
  destruct (dict_get "id" kv) as [i|] eqn:Hi.
  2: { split; [|intros _; by eexists _, _].
       intros _ (kv' & [= <-] & Hall). rewrite !Forall_cons in Hall.
       destruct Hall as ([v Hv] & _). congruence. }
  destruct (dict_get "title" kv) as [t|] eqn:Ht.
  2: { split; [|intros _; by eexists _, _].
       intros _ (kv' & [= <-] & Hall). rewrite !Forall_cons in Hall.
       destruct Hall as (_ & [v Hv] & _). congruence. }
  destruct (dict_get "author" kv) as [a|] eqn:Ha.
  2: { split; [|intros _; by eexists _, _].
       intros _ (kv' & [= <-] & Hall). rewrite !Forall_cons in Hall.
       destruct Hall as (_ & _ & [v Hv] & _). congruence. }
  destruct (dict_get "year" kv) as [y|] eqn:Hy.
  2: { split; [|intros _; by eexists _, _].
       intros _ (kv' & [= <-] & Hall). rewrite !Forall_cons in Hall.
       destruct Hall as (_ & _ & _ & [v Hv] & _). congruence. }
  destruct (dict_get "status" kv) as [st|] eqn:Hst.
  2: { split; [|intros _; by eexists _, _].
       intros _ (kv' & [= <-] & Hall). rewrite !Forall_cons in Hall.
       destruct Hall as (_ & _ & _ & _ & [v Hv] & _). congruence. }
  split.
  - intros (e & s' & He). by apply Book_of_values_no_raise in He.
  - intros Hno. destruct Hno. exists kv. split; [done|].
    repeat (constructor; [by eexists|]). constructor.
Qed.

(** X3.  On a dictionary, [from_dict] raises [KeyError] for the first of
    the keys id, title, author, year, status that the dictionary lacks, in
    this order, whatever else the dictionary holds. *)
Theorem from_dict_first_missing_key (kv : list (string * json))
    (pre post : list string) (k : string) (s : State) :
  record_keys = pre ++ k :: post →
  Forall (λ k', is_Some (dict_get k' kv)) pre →
  dict_get k kv = None →
  from_dict (JObj kv) s = Raise (KeyError k) s.
Proof.
  intros Hkeys Hpre Hk. unfold record_keys in Hkeys.
  unfold from_dict, getitem. run_M.
  repeat (destruct pre as [|? pre];
    [ injection Hkeys as <- <-; by rewrite Hk
    | injection Hkeys as <- Hkeys;
      apply Forall_cons in Hpre as [[? ->] Hpre] ]).
  destruct pre; discriminate.
Qed.

Lemma from_dict_first_missing_key_witness :
  from_dict (JObj [("year", JInt 1965); ("id", JInt 1); ("title", JStr "Dune")])
            shelf = Raise (KeyError "author") shelf.
Proof.
  apply (from_dict_first_missing_key _ ["id"; "title"] ["year"; "status"]).
  - reflexivity.
  - repeat constructor; by eexists.
  - reflexivity.
Defined.

(** ** load_books on any file *)

Lemma grows_refl (s : State) : grows s s.
Proof. by split_and!. Qed.

Lemma grows_trans (s1 s2 s3 : State) : grows s1 s2 → grows s2 s3 → grows s1 s3.
Proof.
  intros (Hd & Hb & Hc & Ho) (Hd' & Hb' & Hc' & Ho'). split_and!.
  - by rewrite Hd', Hd.
  - by etrans.
  - lia.
  - by rewrite Ho', Ho.
Qed.

(** On an entry with typed values [from_dict] returns or raises. *)
Lemma from_dict_typed (o : json) (s : State) :
  typed_entry o →
  (∃ b, from_dict o s = Return b s) ∨
  (∃ e, from_dict o s = Raise e s ∧ is_JSONDecodeError e = false).
Proof.
  intros Htyped.
  destruct (from_dict_cases o s) as [(b & Hb & _)|[?|Hun]]; [by eauto | by auto |].
  exfalso. destruct o as [| | | | |kv]; try done.
  destruct Htyped as (Hi & Ht & Ha & Hy & Hst).
  unfold from_dict, getitem in Hun. revert Hun. run_M.
  destruct (dict_get "id" kv) as [i|]; [|done].
  destruct (dict_get "title" kv) as [t|]; [|done].
  destruct (dict_get "author" kv) as [a|]; [|done].
  destruct (dict_get "year" kv) as [y|]; [|done].
  destruct (dict_get "status" kv) as [st|]; [|done].
  destruct (Hi _ eq_refl) as [? ->]. destruct (Ht _ eq_refl) as [? ->].
  destruct (Ha _ eq_refl) as [? ->]. destruct (Hy _ eq_refl) as [? ->].
  by destruct (Hst _ eq_refl) as [? ->].
Qed.

(** The loop of [load_books] over entries with typed values. *)
Lemma load_loop_grows (l : list json) (s : State) :
  Forall typed_entry l →
  match
    for_each l (λ book_data,
      book ← from_dict book_data;
      s ← get;
      set_books (books s ++ [book]);;
      set_current_id (Z.max (current_id s) (book_id book + 1))) s
  with
  | Return _ s' => grows s s'
  | Raise e s' => is_JSONDecodeError e = false ∧ grows s s'
  | Untyped => False
  end.
Proof.
  intros Hl. revert s. induction Hl as [|o l Ho _ IH]; intros s.
  - apply grows_refl.
  - cbn [for_each]. unfold mbind at 1, M_bind at 1.
    unfold mbind at 1, M_bind at 1.
    destruct (from_dict_typed o s Ho) as [(b & Hb)|(e & He & Hne)].
    2: { rewrite He. split; [done | apply grows_refl]. }
    rewrite Hb. run_M.
    assert (Hstep : grows s
      (mkState (books s ++ [b]) (Z.max (current_id s) (book_id b + 1))
               (disk s) (stdout s))).
    { split_and!; cbn; [done | by apply prefix_app_r | lia | done]. }
    specialize (IH (mkState (books s ++ [b])
      (Z.max (current_id s) (book_id b + 1)) (disk s) (stdout s))).
    destruct (for_each l _ _) as [[] s'|e s'|]; [| |done].
    + by eapply grows_trans.
    + destruct IH as [He IH]. split; [done|]. by eapply grows_trans.
Qed.

(** X4.  Whatever the backing file holds, provided the entries of its list
    give integers to id and year and strings to title, author and status,
    [load_books] returns or raises and in both cases does not write the
    file, keeps every record that the catalog already has, in front and
    unchanged, and does not lower the counter.  When it returns it has
    printed nothing, or only the diagnostic, and then the catalog is
    untouched; when it raises it has printed nothing, and the exception is
    not a [JSONDecodeError]. *)
Theorem load_books_keeps (s : State) :
  (∀ l, disk s = Some (Json_text (JList l)) → Forall typed_entry l) →
  match load_books s with
  | Return _ s' =>
      disk s' = disk s ∧
      books s `prefix_of` books s' ∧
      current_id s ≤ current_id s' ∧
      (stdout s' = stdout s ∨
       (stdout s' = stdout s ++ [load_error_message] ∧
        books s' = books s ∧ current_id s' = current_id s))
  | Raise e s' =>
      is_JSONDecodeError e = false ∧
      disk s' = disk s ∧
      books s `prefix_of` books s' ∧
      current_id s ≤ current_id s' ∧
      stdout s' = stdout s
  | Untyped => False
  end.
Proof.
  intros Htyped.
  unfold load_books. unfold mbind at 1, M_bind at 1, get at 1.
  destruct (disk s) as [[| |doc]|] eqn:Hdisk.
  - cbn. simpl. by split_and!.
  - cbn. simpl.
    split_and!; [done | done | lia | by right].
  - unfold try_except, json_load.
    unfold mbind at 1, M_bind at 1, mret at 1, M_ret at 1.
    unfold mbind at 1, M_bind at 1.
    assert (Hloop : ∀ l, Forall typed_entry l →
      match
        match
          for_each l (λ book_data,
            book ← from_dict book_data;
            s ← get;
            set_books (books s ++ [book]);;
            set_current_id (Z.max (current_id s) (book_id book + 1))) s
        with
        | Raise e s' =>
            if is_JSONDecodeError e then print load_error_message s'
            else Raise e s'
        | o => o
        end
      with
      | Return _ s' =>
          disk s' = Some (Json_text doc) ∧
          books s `prefix_of` books s' ∧
          current_id s ≤ current_id s' ∧
          (stdout s' = stdout s ∨
           (stdout s' = stdout s ++ [load_error_message] ∧
            books s' = books s ∧ current_id s' = current_id s))
      | Raise e s' =>
          is_JSONDecodeError e = false ∧
          disk s' = Some (Json_text doc) ∧
          books s `prefix_of` books s' ∧
          current_id s ≤ current_id s' ∧
          stdout s' = stdout s
      | Untyped => False
      end).
    { intros l Hl. pose proof (load_loop_grows l s Hl) as Hgrows.
      destruct (for_each l _ s) as [[] s'|e s'|]; [| |done].
      - destruct Hgrows as (Hd & ? & ? & ?). rewrite Hdisk in Hd.
        split_and!; auto.
      - destruct Hgrows as (He & Hd & ? & ? & ?). rewrite Hdisk in Hd.
        rewrite He. by split_and!. }
    destruct doc as [| | |str|l|kv]; cbn [py_iter];
      try (cbn; simpl; by split_and!).
    + apply Hloop. apply Forall_fmap, Forall_true. done.
    + apply Hloop. by apply Htyped.
    + apply Hloop. apply Forall_fmap, Forall_true. done.
  - cbn. simpl.
    split_and!; [done | done | lia | by left].
Qed.

Lemma load_books_keeps_witness :
  (∀ l, disk reloading = Some (Json_text (JList l)) → Forall typed_entry l) ∧
  match load_books reloading with
  | Return _ s' =>
      disk s' = disk reloading ∧
      books reloading `prefix_of` books s' ∧
      current_id reloading ≤ current_id s' ∧
      (stdout s' = stdout reloading ∨
       (stdout s' = stdout reloading ++ [load_error_message] ∧
        books s' = books reloading ∧ current_id s' = current_id reloading))
  | Raise e s' =>
      is_JSONDecodeError e = false ∧
      disk s' = disk reloading ∧
      books reloading `prefix_of` books s' ∧
      current_id reloading ≤ current_id s' ∧
      stdout s' = stdout reloading
  | Untyped => False
  end.
Proof.
  assert (H : ∀ l, disk reloading = Some (Json_text (JList l)) →
                   Forall typed_entry l).
  { intros l [= <-]. repeat constructor; cbn;
      intros v [= <-]; by eexists. }
  split; [exact H | exact (load_books_keeps reloading H)].
Defined.

(** At the third entry of [reloading] the load raises, the two records in
    front of it read. *)
Example load_books_reloading :
  load_books reloading =
  Raise (KeyError "title")
    (mkState [mkBook 1 "Emma" "Austen" 1815 "loaned";
              mkBook 7 "Dune" "Herbert" 1965 "loaned";
              mkBook 3 "Hobbit" "Tolkien" 1937 "в наличии"] 8
             (disk reloading) []).
Proof. vm_compute. reflexivity. Qed.

Lemma for_each_app {A} (l1 l2 : list A) (body : A → M unit) (s : State) :
  for_each (l1 ++ l2) body s =
  match for_each l1 body s with
  | Return _ s' => for_each l2 body s'
  | o => o
  end.
Proof.
  revert s. induction l1 as [|x l1 IH]; intros s; [done|].
  cbn [for_each app]. unfold mbind, M_bind.
  destruct (body x s) as [[] s1|e s1|]; [apply IH | done | done].
Qed.

(** X5.  A file that parses to something other than a list: the empty
    dictionary and the empty string load as an empty catalog, without a
    diagnostic; every other value (null, a boolean, a number, a dictionary
    or a string that is not empty) ends [Library()] with a [TypeError],
    nothing printed and the file as it was. *)
Theorem load_not_a_list (doc : json) (out : list string) :
  (∀ l, doc ≠ JList l) →
  Library_init (Some (Json_text doc)) out =
  if empty_container doc
  then Return tt (mkState [] 1 (Some (Json_text doc)) out)
  else Raise TypeError (mkState [] 1 (Some (Json_text doc)) out).
Proof.
  intros Hdoc. destruct doc as [| | |str|l|kv]; try reflexivity.
  - by destruct str.
  - by destruct (Hdoc l).
  - by destruct kv as [|[k v] kv].
Qed.

Lemma load_not_a_list_witness :
  Library_init (Some (Json_text (JObj [("books", JList [to_dict dune])]))) [] =
  Raise TypeError
    (mkState [] 1 (Some (Json_text (JObj [("books", JList [to_dict dune])]))) []).
Proof. apply (load_not_a_list (JObj [("books", JList [to_dict dune])])). done. Defined.

(** X6.  One entry that [from_dict] rejects, anywhere in the list of the
    file, ends [Library()] with the exception of [from_dict]: the records in
    front of it have been read, the entries behind it are not looked at,
    nothing is printed and the file is as it was. *)
Theorem load_bad_record (l1 l2 : list json) (bs : list Book) (bad : json)
    (e : exn) (out : list string) :
  Forall2 record_object l1 bs →
  (∀ s, from_dict bad s = Raise e s) →
  ∃ s',
    Library_init (Some (Json_text (JList (l1 ++ bad :: l2)))) out = Raise e s' ∧
    books s' = bs ∧
    disk s' = Some (Json_text (JList (l1 ++ bad :: l2))) ∧
    stdout s' = out.
Proof.
  intros Hl1 Hbad.
  assert (He : is_JSONDecodeError e = false).
  { destruct (from_dict_cases bad (mkState [] 1 None []))
      as [(b & Hb & _)|[(e' & He' & Hne)|Hun]];
      rewrite Hbad in *; [done | by injection He' as -> | done]. }
  eexists. split.
  - unfold Library_init, load_books.
    unfold mbind at 1, M_bind at 1, get at 1. cbn [disk].
    unfold try_except, json_load, py_iter.
    unfold mbind at 1, M_bind at 1, mret at 1, M_ret at 1.
    unfold mbind at 1, M_bind at 1, mret at 1, M_ret at 1.
    rewrite for_each_app, (load_loop _ _ Hl1).
    cbn [for_each]. unfold mbind at 1, M_bind at 1.
    unfold mbind at 1, M_bind at 1. rewrite Hbad, He. reflexivity.
  - by split_and!.
Qed.

Lemma load_bad_record_witness :
  ∃ s',
    Library_init
      (Some (Json_text (JList (two_records ++ JObj [("id", JInt 9)] :: [to_dict dune]))))
      [] = Raise (KeyError "title") s' ∧
    books s' = two_books ∧
    disk s' =
      Some (Json_text (JList (two_records ++ JObj [("id", JInt 9)] :: [to_dict dune]))) ∧
    stdout s' = [].
Proof.
  apply (load_bad_record two_records [to_dict dune] two_books).
  - repeat constructor.
  - intros s. reflexivity.
Defined.

(** X7.  After a load of a well-formed file, every id that a later
    [add_book] assigns is greater than the id of every record loaded,
    whatever calls are made in between. *)
Theorem ids_after_load (l : list json) (bs : list Book) (out : list string)
    (os : list op) :
  Forall2 record_object l bs →
  ∃ s0,
    Library_init (Some (Json_text (JList l))) out = Return tt s0 ∧
    Forall (λ i, ∀ b, b ∈ bs → book_id b < i) (assigned_ids os s0).
Proof.
  intros Hl. eexists. split.
  - unfold Library_init. by rewrite (load_books_document l bs).
  - cbn [books app]. destruct (next_after_bounds bs 1) as (_ & Hall & _).
    eapply Forall_impl; [apply assigned_ids_from|].
    cbn. intros i Hi b Hb. specialize (Hall b Hb). lia.
Qed.

Lemma ids_after_load_witness :
  ∃ s0,
    Library_init (Some (Json_text (JList two_records))) [] = Return tt s0 ∧
    Forall (λ i, ∀ b, b ∈ two_books → book_id b < i)
      (assigned_ids [Remove 7; Add "Emma" "Austen" 1815] s0).
Proof.
  apply (ids_after_load two_records two_books).
  repeat constructor.
Defined.

(** ** The file follows the catalog *)

Lemma call_sync (o : op) (s s' : State) :
  call o s = Return tt s' →
  in_sync s' ∨
  (books s' = books s ∧ current_id s' = current_id s ∧ disk s' = disk s).
Proof.
  destruct o as [t a y|i|i st]; cbn [call].
  - rewrite add_book_run. intros [= <-]. by left.
  - destruct (list_find (λ book, book_id book = i) (books s)) as [[k b]|] eqn:E.
    + rewrite (remove_book_found _ _ _ _ E). intros [= <-]. by left.
    + rewrite (remove_book_missing _ _ E). intros [= <-]. by right.
  - destruct (list_find (λ book, book_id book = i) (books s)) as [[k b]|] eqn:E.
    + rewrite (update_status_found _ _ _ _ _ E). intros [= <-]. by left.
    + rewrite (update_status_missing _ _ _ E). intros [= <-]. by right.
Qed.

Lemma call_in_sync (o : op) (s s' : State) :
  in_sync s → call o s = Return tt s' → in_sync s'.
Proof.
  intros Hs Ho. destruct (call_sync _ _ _ Ho) as [?|(Hb & _ & Hd)]; [done|].
  unfold in_sync in *. by rewrite Hd, Hb.
Qed.

Lemma calls_in_sync (os : list op) (s : State) :
  in_sync s → ∃ s', calls os s = Return tt s' ∧ in_sync s'.
Proof.
  revert s. induction os as [|o os IH]; intros s Hs.
  - by exists s.
  - destruct (call_returns o s) as [s1 Hs1].
    rewrite (calls_cons _ _ _ _ Hs1). apply IH. by eapply call_in_sync.
Qed.

Lemma calls_sync (os : list op) (s : State) :
  ∃ s',
    calls os s = Return tt s' ∧
    (in_sync s' ∨
     (books s' = books s ∧ current_id s' = current_id s ∧ disk s' = disk s)).
Proof.
  revert s. induction os as [|o os IH]; intros s.
  - exists s. split; [done | by right].
  - destruct (call_returns o s) as [s1 Hs1].
    rewrite (calls_cons _ _ _ _ Hs1).
    destruct (call_sync _ _ _ Hs1) as [Hsync|(Hb & Hc & Hd)].
    + destruct (calls_in_sync os s1 Hsync) as (s' & Hs' & Hsync').
      exists s'. split; [done | by left].
    + destruct (IH s1) as (s' & Hs' & [Hsync|(Hb' & Hc' & Hd')]).
      * exists s'. split; [done | by left].
      * exists s'. split; [done|]. right. by rewrite Hb', Hc', Hd'.
Qed.

(** X8.  After any sequence of calls of [add_book], [remove_book] and
    [update_status], either the backing file holds exactly the catalog, each
    record with its five fields and in catalog order, or no call has changed
    anything: the records, the counter and the file are those of the
    start. *)
Theorem calls_keep_in_sync (os : list op) (s : State) :
  ∃ s',
    calls os s = Return tt s' ∧
    (disk s' = Some (Json_text (JList (to_dict <$> books s'))) ∨
     (books s' = books s ∧ current_id s' = current_id s ∧ disk s' = disk s)).
Proof. apply calls_sync. Qed.

(** ** display_books *)

Lemma display_books_run (s : State) :
  display_books s =
  Return tt (mkState (books s) (current_id s) (disk s)
    (stdout s ++
     match books s with
     | [] => ["Библиотека пуста."]
     | bs => "Список всех книг:" :: (Book_str <$> bs)
     end)).
Proof.
  unfold display_books. unfold mbind at 1, M_bind at 1, get at 1.
  destruct (books s) as [|b bs] eqn:Hbooks.
  - unfold print. by rewrite Hbooks.
  - unfold mbind, M_bind. unfold print at 1.
    rewrite for_each_print. cbn [books current_id disk stdout].
    rewrite Hbooks, <-app_assoc. reflexivity.
Qed.

(** X9.  [display_books] prints that the library is empty when the catalog
    has no record, and otherwise a header followed by one line per record,
    in catalog order, each with the id, title, author, year and status of
    its record; it changes neither the records, the counter nor the file. *)
Theorem display_books_spec (s : State) :
  display_books s =
  Return tt (mkState (books s) (current_id s) (disk s)
    (stdout s ++
     match books s with
     | [] => ["Библиотека пуста."]
     | bs => "Список всех книг:" ::
             ((λ b, "ID: " +:+ str_int (book_id b) +:+ ", Title: " +:+ title b
                    +:+ ", Author: " +:+ author b +:+ ", Year: "
                    +:+ str_int (year b) +:+ ", Status: " +:+ status b) <$> bs)
     end)).
Proof. apply display_books_run. Qed.

(** ** Removing and updating in a catalog of distinct ids *)

(** X10.  In a catalog whose ids are pairwise distinct, [remove_book] of an
    id that a record has leaves exactly the records with another id, and a
    second [remove_book] of the same id reports that the book is not found
    and changes nothing. *)
Theorem remove_book_distinct (s : State) (i : Z) :
  NoDup (book_id <$> books s) →
  (∃ b, b ∈ books s ∧ book_id b = i) →
  ∃ s',
    remove_book i s = Return tt s' ∧
    (∀ b, b ∈ books s' ↔ b ∈ books s ∧ book_id b ≠ i) ∧
    remove_book i s' =
      Return tt (mkState (books s') (current_id s') (disk s')
                         (stdout s' ++ [not_found_message i])).
Proof.
  intros Hnodup (b0 & Hin & Hid).
  destruct (list_find_elem_of (λ book, book_id book = i) (books s) b0 Hin Hid)
    as [[k b] Hfind].
  destruct (list_find_split _ _ _ _ Hfind) as (l1 & l2 & Hsplit & Hlen & Hl1).
  pose proof Hfind as (_ & Hb & _)%list_find_Some.
  rewrite Hsplit, fmap_app, fmap_cons in Hnodup.
  apply NoDup_app in Hnodup as (_ & Hl1b & Hnodup).
  apply NoDup_cons in Hnodup as [Hl2 _].
  assert (Hgone : ∀ b', b' ∈ l1 ++ l2 → book_id b' ≠ i).
  { intros b' [Hb'|Hb']%elem_of_app.
    - rewrite Forall_forall in Hl1. by apply Hl1.
    - intros Heq. apply Hl2. rewrite Hb, <-Heq.
      by apply list_elem_of_fmap_2. }
  assert (Hbooks : delete k (books s) = l1 ++ l2).
  { rewrite Hsplit, <-Hlen. apply delete_middle. }
  eexists. split; [exact (remove_book_found _ _ _ _ Hfind)|].
  cbn [books current_id disk stdout]. rewrite Hbooks. split.
  - intros b'. rewrite Hsplit, !elem_of_app, elem_of_cons. split.
    + intros Hb'. split; [tauto|]. apply Hgone. by apply elem_of_app.
    + intros [[?|[->|?]] Hne]; tauto.
  - apply remove_book_missing. cbn [books]. by apply find_id_missing.
Qed.

Lemma remove_book_distinct_witness :
  ∃ s',
    remove_book 2 shelf = Return tt s' ∧
    (∀ b, b ∈ books s' ↔ b ∈ books shelf ∧ book_id b ≠ 2) ∧
    remove_book 2 s' =
      Return tt (mkState (books s') (current_id s') (disk s')
                         (stdout s' ++ [not_found_message 2])).
Proof.
  apply (remove_book_distinct shelf 2).
  - apply (bool_decide_unpack _). by vm_compute.
  - exists hobbit. split; [right; left | reflexivity].
Defined.

Lemma update_status_again (s : State) (i : Z) (st : string) (k : nat) (b : Book) :
  list_find (λ book, book_id book = i) (books s) = Some (k, b) →
  list_find (λ book, book_id book = i) (<[k := set_status b st]> (books s))
  = Some (k, set_status b st).
Proof.
  intros Hfind.
  destruct (list_find_split _ _ _ _ Hfind) as (l1 & l2 & Hsplit & Hlen & Hl1).
  pose proof Hfind as (_ & Hb & _)%list_find_Some.
  rewrite Hsplit, <-Hlen, list_insert_middle.
  by apply list_find_first.
Qed.

(** X11.  Of two calls of [update_status] with the same id, the second
    wins: the records, the counter and the file after the two calls are
    those after the second call alone. *)
Theorem update_status_last_wins (s : State) (i : Z) (st1 st2 : string) :
  ∃ s1 s2 s2',
    update_status i st1 s = Return tt s1 ∧
    update_status i st2 s1 = Return tt s2 ∧
    update_status i st2 s = Return tt s2' ∧
    books s2 = books s2' ∧
    current_id s2 = current_id s2' ∧
    disk s2 = disk s2'.
Proof.
  destruct (list_find (λ book, book_id book = i) (books s)) as [[k b]|] eqn:E.
  - set (s1 := mkState (<[k := set_status b st1]> (books s)) (current_id s)
        (Some (Json_text (JList (to_dict <$> <[k := set_status b st1]> (books s)))))
        (stdout s ++ [updated_message (title b) st1])).
    exists s1. eexists _, _.
    split; [exact (update_status_found _ st1 _ _ _ E)|].
    split; [exact (update_status_found i st2 s1 k (set_status b st1)
                     (update_status_again s i st1 k b E))|].
    split; [exact (update_status_found _ st2 _ _ _ E)|].
    subst s1. cbn [books current_id disk].
    assert (Hbooks :
      <[k := set_status (set_status b st1) st2]>
        (<[k := set_status b st1]> (books s))
      = <[k := set_status b st2]> (books s)).
    { destruct (list_find_split _ _ _ _ E) as (l1 & l2 & -> & <- & _).
      by rewrite !list_insert_middle. }
    by rewrite Hbooks.
  - set (s1 := mkState (books s) (current_id s) (disk s)
                       (stdout s ++ [not_found_message i])).
    exists s1. eexists _, _.
    split; [exact (update_status_missing _ st1 _ E)|].
    split; [exact (update_status_missing i st2 s1 E)|].
    split; [exact (update_status_missing _ st2 _ E)|]. done.
Qed.

(** X12.  When no record has the id of the counter, [add_book] followed by
    [remove_book] of the id just assigned gives back the records as they
    were, with the file in step; the counter stays one higher, so the id is
    not assigned again. *)
Theorem add_then_remove (s : State) (t a : string) (y : Z) :
  (∀ b, b ∈ books s → book_id b ≠ current_id s) →
  ∃ s1 s2,
    add_book t a y s = Return tt s1 ∧
    remove_book (current_id s) s1 = Return tt s2 ∧
    books s2 = books s ∧
    current_id s2 = current_id s + 1 ∧
    disk s2 = Some (Json_text (JList (to_dict <$> books s))).
Proof.
  intros Hfresh.
  assert (Hfind :
    list_find (λ book, book_id book = current_id s)
      (books s ++ [Book_init (current_id s) t a y])
    = Some (length (books s), Book_init (current_id s) t a y)).
  { apply list_find_first; [by apply Forall_forall | done]. }
  set (s1 := mkState
    (books s ++ [Book_init (current_id s) t a y])
    (current_id s + 1)
    (Some (Json_text (JList (to_dict <$> books s ++ [Book_init (current_id s) t a y]))))
    (stdout s ++ [added_message t (current_id s)])).
  exists s1. eexists. split; [apply add_book_run|].
  split; [exact (remove_book_found (current_id s) s1 _ _ Hfind)|].
  subst s1. cbn [books current_id disk].
  rewrite delete_middle, app_nil_r. done.
Qed.

Lemma add_then_remove_witness :
  ∃ s1 s2,
    add_book "Emma" "Austen" 1815 shelf_dup = Return tt s1 ∧
    remove_book (current_id shelf_dup) s1 = Return tt s2 ∧
    books s2 = books shelf_dup ∧
    current_id s2 = current_id shelf_dup + 1 ∧
    disk s2 = Some (Json_text (JList (to_dict <$> books shelf_dup))).
Proof.
  apply (add_then_remove shelf_dup).
  intros b Hb. cbn in Hb. rewrite !elem_of_cons in Hb.
  destruct Hb as [->|[->|[->|[]%elem_of_nil]]]; cbn; lia.
Defined.

(** ** Searching by year *)

Lemma plain_ascii_cons (c : ascii) (t : string) :
  (nat_of_ascii c < 128)%nat → ascii_lower_char c = c →
  plain_ascii t → plain_ascii (String c t).
Proof.
  intros Hc Hl [Ht1 Ht2]. split; cbn.
  - rewrite Ht1. by rewrite bool_decide_eq_true_2.
  - by rewrite Hl, Ht2.
Qed.

Lemma plain_ascii_digit (x : N) (t : string) :
  plain_ascii t → plain_ascii (String (pretty_N_char x) t).
Proof.
  intros Ht. unfold pretty_N_char.
  repeat case_match;
    (apply plain_ascii_cons;
     [apply Nat.ltb_lt; vm_compute; reflexivity | vm_compute; reflexivity | done]).
Qed.

Lemma plain_ascii_pretty_N_go (x : N) (t : string) :
  plain_ascii t → plain_ascii (pretty_N_go x t).
Proof.
  revert t. induction (N.lt_wf_0 x) as [x _ IH]; intros t Ht.
  destruct (decide (0 < x)%N) as [Hx|Hx].
  - rewrite pretty_N_go_step by done. apply IH.
    + by apply N.div_lt.
    + by apply plain_ascii_digit.
  - assert (x = 0%N) as -> by lia. by rewrite pretty_N_go_0.
Qed.

Lemma plain_ascii_pretty_N (x : N) : plain_ascii (pretty x).
Proof.
  unfold pretty, pretty_N. case_decide.
  - by split.
  - apply plain_ascii_pretty_N_go. by split.
Qed.

(** The decimal text of an integer is ASCII and has no upper-case letter. *)
Lemma plain_ascii_str_int (z : Z) : plain_ascii (str_int z).
Proof.
  unfold str_int, pretty, pretty_Z. destruct z as [|p|p].
  - by split.
  - apply plain_ascii_pretty_N.
  - apply plain_ascii_cons;
      [ apply Nat.ltb_lt; vm_compute; reflexivity
      | vm_compute; reflexivity
      | apply plain_ascii_pretty_N ].
Qed.

(** X13.  Searching the key year for the decimal text of an integer finds
    exactly the records of that year, in catalog order.  [lower] is
    [str.lower], of which only its action on ASCII text is assumed. *)
Theorem search_year (lower : string → string) (bs : list Book) (y : Z) :
  (∀ t, is_ascii t = true → lower t = ascii_lower t) →
  search_results lower bs "year" (str_int y) = filter (λ b, year b = y) bs.
Proof.
  intros Hlower.
  assert (Hplain : ∀ z, lower (str_int z) = str_int z).
  { intros z. destruct (plain_ascii_str_int z) as [H1 H2].
    by rewrite Hlower, H2. }
  change (search_results lower bs "year" (str_int y))
    with (filter (λ b, lower (str_int (year b)) = lower (str_int y)) bs).
  apply list_filter_iff. intros b. rewrite !Hplain. split.
  - apply (inj pretty).
  - by intros ->.
Qed.

Lemma search_year_witness :
  search_results ascii_lower [dune; hobbit; emma] "year" (str_int 1937) =
  filter (λ b, year b = 1937) [dune; hobbit; emma].
Proof. apply search_year. reflexivity. Defined.

(** ** The menu *)

Lemma written_store (text : string) (s : State) :
  store (written text s) = store s.
Proof. reflexivity. Qed.

Lemma written_prefix (text : string) (s : State) :
  stdout s `prefix_of` stdout (written text s).
Proof. by apply prefix_app_r. Qed.

(** A call depends on the store only, and only adds to the output. *)
Lemma call_store (o : op) (s a s' a' : State) :
  store s = store a →
  call o s = Return tt s' → call o a = Return tt a' → store s' = store a'.
Proof.
  unfold store. intros [= Hb Hc Hd].
  destruct o as [t au y|i|i st]; cbn [call].
  - rewrite !add_book_run. intros [= <-] [= <-]. cbn. by rewrite Hb, Hc.
  - destruct (list_find (λ book, book_id book = i) (books s)) as [[k b]|] eqn:E.
    + rewrite (remove_book_found _ _ _ _ E). rewrite Hb in E.
      rewrite (remove_book_found _ _ _ _ E). intros [= <-] [= <-].
      cbn. by rewrite Hb, Hc.
    + rewrite (remove_book_missing _ _ E). rewrite Hb in E.
      rewrite (remove_book_missing _ _ E). intros [= <-] [= <-].
      cbn. by rewrite Hb, Hc, Hd.
  - destruct (list_find (λ book, book_id book = i) (books s)) as [[k b]|] eqn:E.
    + rewrite (update_status_found _ _ _ _ _ E). rewrite Hb in E.
      rewrite (update_status_found _ _ _ _ _ E). intros [= <-] [= <-].
      cbn. by rewrite Hb, Hc.
    + rewrite (update_status_missing _ _ _ E). rewrite Hb in E.
      rewrite (update_status_missing _ _ _ E). intros [= <-] [= <-].
      cbn. by rewrite Hb, Hc, Hd.
Qed.

Lemma call_stdout (o : op) (s s' : State) :
  call o s = Return tt s' → stdout s `prefix_of` stdout s'.
Proof.
  destruct o as [t a y|i|i st]; cbn [call].
  - rewrite add_book_run. intros [= <-]. by apply prefix_app_r.
  - destruct (list_find (λ book, book_id book = i) (books s)) as [[k b]|] eqn:E.
    + rewrite (remove_book_found _ _ _ _ E). intros [= <-]. by apply prefix_app_r.
    + rewrite (remove_book_missing _ _ E). intros [= <-]. by apply prefix_app_r.
  - destruct (list_find (λ book, book_id book = i) (books s)) as [[k b]|] eqn:E.
    + rewrite (update_status_found _ _ _ _ _ E). intros [= <-].
      by apply prefix_app_r.
    + rewrite (update_status_missing _ _ _ E). intros [= <-].
      by apply prefix_app_r.
Qed.

Lemma calls_store (os : list op) (s a : State) :
  store s = store a →
  ∃ s' a',
    calls os s = Return tt s' ∧ calls os a = Return tt a' ∧ store s' = store a'.
Proof.
  revert s a. induction os as [|o os IH]; intros s a Hsa.
  - by exists s, a.
  - destruct (call_returns o s) as [s1 Hs1].
    destruct (call_returns o a) as [a1 Ha1].
    rewrite (calls_cons _ _ _ _ Hs1), (calls_cons _ _ _ _ Ha1).
    apply IH. by eapply call_store.
Qed.

Lemma search_books_returns (lower : string → string) (key value : string)
    (s : State) :
  ∃ s', search_books lower key value s = Return tt s' ∧
        store s' = store s ∧ stdout s `prefix_of` stdout s'.
Proof.
  destruct (decide (key ∈ search_keys)) as [Hkey|Hkey].
  - eexists. split; [by apply search_books_valid|].
    split; [done | by apply prefix_app_r].
  - eexists. split; [by apply search_books_invalid|].
    split; [done | by apply prefix_app_r].
Qed.

Lemma display_books_returns (s : State) :
  ∃ s', display_books s = Return tt s' ∧
        store s' = store s ∧ stdout s `prefix_of` stdout s'.
Proof.
  eexists. split; [apply display_books_run|].
  split; [done | by apply prefix_app_r].
Qed.

(** The end of the input. *)
Lemma runs_as_end (stdin : list string) (s sp : State) :
  store sp = store s → stdout s `prefix_of` stdout sp →
  runs_as stdin s (EndOfInput sp).
Proof. intros Hst Hout. exists [], s, sp. split_and!; [done | done | done | by right]. Qed.

(** An iteration that makes no call. *)
Lemma runs_as_skip (stdin rest : list string) (s sp : State) (e : ending) :
  store sp = store s → stdout s `prefix_of` stdout sp →
  ("6" ∈ rest → "6" ∈ stdin) →
  runs_as rest sp e → runs_as stdin s e.
Proof.
  intros Hst Hout Hsix (os & s1 & s' & Hos & Hs' & Hout' & Hend).
  destruct (calls_store os sp s Hst) as (s1' & a' & Hs1' & Ha' & Heq).
  rewrite Hos in Hs1'. injection Hs1' as <-.
  exists os, a', s'. split_and!.
  - done.
  - by rewrite Hs', Heq.
  - by etrans.
  - destruct Hend as [(-> & ? & ?)| ->]; [left | right]; auto.
Qed.

(** An iteration that calls [add_book], [remove_book] or [update_status]. *)
Lemma runs_as_call (stdin rest : list string) (o : op) (s sp s2 : State)
    (e : ending) :
  store sp = store s → stdout s `prefix_of` stdout sp →
  ("6" ∈ rest → "6" ∈ stdin) →
  call o sp = Return tt s2 →
  runs_as rest s2 e → runs_as stdin s e.
Proof.
  intros Hst Hout Hsix Hcall (os & s1 & s' & Hos & Hs' & Hout' & Hend).
  destruct (call_returns o s) as [a2 Ha2].
  assert (Heq2 : store s2 = store a2)
    by exact (call_store o sp s s2 a2 Hst Hcall Ha2).
  destruct (calls_store os s2 a2 Heq2) as (s1' & a1 & Hs1' & Ha1 & Heq).
  rewrite Hos in Hs1'. injection Hs1' as <-.
  exists (o :: os), a1, s'. split_and!.
  - by rewrite (calls_cons _ _ _ _ Ha2).
  - by rewrite Hs', Heq.
  - etrans; [exact Hout|]. etrans; [by eapply call_stdout|]. done.
  - destruct Hend as [(-> & ? & ?)| ->]; [left | right]; auto.
Qed.

Ltac solve_written :=
  first
    [ reflexivity
    | unfold written; cbn [stdout]; repeat apply prefix_app_r; reflexivity
    | intros ?; repeat apply list_elem_of_further; assumption ].

(** Every run of the loop is a run of calls on the store. *)
Lemma main_loop_runs (lower : string → string) (py_int : string → option Z)
    (n : nat) (stdin : list string) (s : State) :
  (length stdin ≤ n)%nat →
  runs_as stdin s (main_loop lower py_int stdin s).
Proof.
  revert stdin s. induction n as [|n IH]; intros stdin s Hlen.
  { destruct stdin; [|cbn in Hlen; lia].
    cbn [main_loop]. apply runs_as_end; solve_written. }
  destruct stdin as [|choice rest]; cbn [main_loop].
  { apply runs_as_end; solve_written. }
  cbn [length] in Hlen.
  repeat case_decide.
  - (* 1 *)
    destruct rest as [|t rest]; [apply runs_as_end; solve_written|].
    destruct rest as [|a rest]; [apply runs_as_end; solve_written|].
    destruct rest as [|y rest]; [apply runs_as_end; solve_written|].
    cbn [length] in Hlen.
    destruct (py_int y) as [y'|].
    + match goal with |- context [add_book t a y' ?sp] =>
        destruct (call_returns (Add t a y') sp) as [s2 Hs2] end.
      cbn [call] in Hs2. rewrite Hs2. cbn [after_call].
      eapply (runs_as_call _ rest (Add t a y')); [| | |exact Hs2|];
        [solve_written.. |].
      apply IH. lia.
    + eapply (runs_as_skip _ rest); [| | |apply IH; lia]; solve_written.
  - (* 2 *)
    destruct rest as [|i rest]; [apply runs_as_end; solve_written|].
    cbn [length] in Hlen.
    destruct (py_int i) as [i'|].
    + match goal with |- context [remove_book i' ?sp] =>
        destruct (call_returns (Remove i') sp) as [s2 Hs2] end.
      cbn [call] in Hs2. rewrite Hs2. cbn [after_call].
      eapply (runs_as_call _ rest (Remove i')); [| | |exact Hs2|];
        [solve_written.. |].
      apply IH. lia.
    + eapply (runs_as_skip _ rest); [| | |apply IH; lia]; solve_written.
  - (* 3 *)
    destruct rest as [|key rest]; [apply runs_as_end; solve_written|].
    destruct rest as [|value rest]; [apply runs_as_end; solve_written|].
    cbn [length] in Hlen.
    match goal with |- context [search_books lower ?k ?v ?sp] =>
      destruct (search_books_returns lower k v sp) as (s2 & Hs2 & Hst & Hout) end.
    rewrite Hs2. cbn [after_call].
    eapply (runs_as_skip _ rest _ s2); [| | |apply IH; lia].
    + by rewrite Hst.
    + etrans; [|exact Hout]. solve_written.
    + solve_written.
  - (* 4 *)
    match goal with |- context [display_books ?sp] =>
      destruct (display_books_returns sp) as (s2 & Hs2 & Hst & Hout) end.
    rewrite Hs2. cbn [after_call].
    eapply (runs_as_skip _ rest _ s2); [| | |apply IH; lia].
    + by rewrite Hst.
    + etrans; [|exact Hout]. solve_written.
    + solve_written.
  - (* 5 *)
    destruct rest as [|i rest]; [apply runs_as_end; solve_written|].
    cbn [length] in Hlen.
    destruct (py_int i) as [i'|].
    + destruct rest as [|st rest]; [apply runs_as_end; solve_written|].
      cbn [length] in Hlen.
      match goal with |- context [update_status i' st ?sp] =>
        destruct (call_returns (UpdateStatus i' st) sp) as [s2 Hs2] end.
      cbn [call] in Hs2. rewrite Hs2. cbn [after_call].
      eapply (runs_as_call _ rest (UpdateStatus i' st)); [| | |exact Hs2|];
        [solve_written.. |].
      apply IH. lia.
    + eapply (runs_as_skip _ rest); [| | |apply IH; lia]; solve_written.
  - (* 6 *)
    subst choice.
    match goal with |- runs_as _ _ (Exited ?s') => exists [], s, s' end.
    split_and!; [done | solve_written | solve_written |].
    left. split_and!; [done | left |].
    unfold written. cbn [stdout]. apply last_snoc.
  - (* any other choice *)
    eapply (runs_as_skip _ rest); [| | |apply IH; lia]; solve_written.
Qed.




(** X16.  Started without a backing file, in whatever state the program
    ends, by the choice 6 or at the end of the input, the ids of its records
    are pairwise distinct and below the counter. *)
Theorem main_without_file (lower : string → string)
    (py_int : string → option Z) (stdin : list string) (s' : State) :
  main lower py_int None stdin = Exited s' ∨
  main lower py_int None stdin = EndOfInput s' →
  NoDup (book_id <$> books s') ∧
  (∀ b, b ∈ books s' → book_id b < current_id s').
Proof.
  unfold main. rewrite load_absent. intros Hend.
  destruct (main_loop_runs lower py_int (length stdin) stdin
              (mkState [] 1 None []) (le_n _))
    as (os & s1 & s2 & Hos & Hst & _ & Hend').
  assert (s2 = s') as ->.
  { destruct Hend as [He|He], Hend' as [(He' & _)|He']; congruence. }
  injection Hst as Hb Hc Hd.
  destruct (ids_fresh_calls os (mkState [] 1 None [])) as (s3 & Hs3 & Hnodup & Hlt).
  { split; cbn; constructor. }
  rewrite Hos in Hs3. injection Hs3 as <-.
  split.
  - by rewrite Hb.
  - rewrite Hb, Hc. by apply Forall_forall.
Qed.

Lemma main_without_file_witness :
  (main ascii_lower decimal_int None session_input = Exited session_end ∨
   main ascii_lower decimal_int None session_input = EndOfInput session_end) ∧
  NoDup (book_id <$> books session_end) ∧
  (∀ b, b ∈ books session_end → book_id b < current_id session_end).
Proof.
  assert (H : main ascii_lower decimal_int None session_input
              = Exited session_end ∨
              main ascii_lower decimal_int None session_input
              = EndOfInput session_end)
    by (left; vm_compute; reflexivity).
  split; [exact H | exact (main_without_file _ _ _ _ H)].
Defined.

(** A session: a book is added, a second dialog is cancelled by a year that
    is not a number, a removal names an id that no record has, and the
    choice 6 ends the program; the lines behind it are not read. *)
Example session :
  match
    main ascii_lower decimal_int None
      ["1"; "Dune"; "Herbert"; "1965";
       "1"; "Hobbit"; "Tolkien"; "MCMXXXVII";
       "2"; "7"; "6"; "1"; "Emma"]
  with
  | Exited s =>
      books s = [dune_added] ∧ current_id s = 2 ∧
      disk s = Some (Json_text (JList [to_dict dune_added])) ∧
      filter (λ line, line = input_error_message
                      ∨ line = "Ошибка: Книга с ID 7 не найдена.") (stdout s)
      = [input_error_message; "Ошибка: Книга с ID 7 не найдена."]
  | _ => False
  end.
Proof. vm_compute. by split_and!. Qed.

(** ** The first call after a load that found the file unreadable *)

(** X17.  When the text of the backing file is not JSON, [Library()] prints
    the diagnostic and keeps the file; the first [add_book] after it assigns
    the id 1 and replaces the file by one that holds the new record alone:
    what the file held before is gone. *)
Theorem add_after_malformed_load (out : list string) (t a : string) (y : Z) :
  ∃ s0 s1,
    Library_init (Some Malformed) out = Return tt s0 ∧
    disk s0 = Some Malformed ∧
    add_book t a y s0 = Return tt s1 ∧
    books s1 = [mkBook 1 t a y "в наличии"] ∧
    current_id s1 = 2 ∧
    disk s1 = Some (Json_text (JList [to_dict (mkBook 1 t a y "в наличии")])) ∧
    stdout s1 = out ++ [load_error_message; added_message t 1].
Proof.
  eexists _, _. split; [apply load_malformed|].
  split; [done|]. split; [apply add_book_run|].
  cbn [books current_id disk stdout]. split_and!; try done.
  by rewrite <-app_assoc.
Qed.
